(** * Brute-force burst detection (report.py): a shallow embedding

    The development follows [src/report.py].  Definitions:
    - [Py]      : the Python primitives the script relies on (exceptions,
                  [while], [list.sort], [sorted(..., reverse=True)],
                  insertion-ordered [dict], [str] methods, [strptime]);
    - [Detector]: [brute_force], the anchor-and-consume clustering loop;
    - [Parser]  : [parse_auth_line];
    - [Report]  : the grouping, aggregation and ranking done in [main];
    - [Trace], [Words]: the index trace of the loops and the vocabulary in
                  which the properties are stated;
    - [Output]  : [print_incidents_preview] and the data of the bar chart;
    - [Measures]: the sums and counts of the further properties.
    Then the proofs: [PyFacts], [Loops], [ClusterFacts], the properties
    themselves in [DetectorSpec], [ParserSpec] and [ReportSpec], and further
    ones in [DetectorMore], [ParserMore] and [ReportMore].

    Instants are integers: the number of seconds since 2025-01-01T00:00:00
    (the script pins the year to 2025 and [strptime] has a resolution of one
    second), so a [timedelta] is an integer number of seconds as well.
    A character is a code point below 256. *)

From Stdlib Require Import ZArith List Bool Lia String Ascii.
From Stdlib Require Import Sorting.Sorted Sorting.Permutation.
Import ListNotations.

Open Scope Z_scope.

(* ================================================================== *)
(** ** Python primitives *)

Module Py.

(** The exceptions the script can meet. *)
Inductive exn : Type := ValueError | IndexError | OverflowError.

(** A computation returns, raises, or is cut off by the iteration bound of a
    [while] loop ([Timeout]: the model's stand-in for a loop that is still
    running). *)
Inductive outcome (A : Type) : Type :=
| Return (a : A)
| Raise (e : exn)
| Timeout.
Arguments Return {A} a.
Arguments Raise {A} e.
Arguments Timeout {A}.

Definition bind {A B : Type} (c : outcome A) (k : A -> outcome B) : outcome B :=
  match c with
  | Return a => k a
  | Raise e => Raise e
  | Timeout => Timeout
  end.

Notation "x <- c ;; k" := (bind c (fun x => k))
  (at level 61, c at next level, right associativity).
Notation "' p <- c ;; k" := (bind c (fun p => k))
  (at level 61, p pattern, c at next level, right associativity).

(** [try: c except E: handler], where [handles] says which exceptions [E]
    covers. *)
Definition try_except {A : Type} (c : outcome A) (handles : exn -> bool)
           (handler : outcome A) : outcome A :=
  match c with
  | Raise e => if handles e then handler else Raise e
  | other => other
  end.

Definition is_ValueError (e : exn) : bool :=
  match e with ValueError => true | _ => false end.

(** [while guard: body].  The loop state is threaded explicitly and [fuel]
    bounds the number of iterations. *)
Fixpoint while_loop {St : Type} (fuel : nat) (guard : St -> outcome bool)
         (body : St -> outcome St) (s : St) : outcome St :=
  b <- guard s ;;
  if b : bool then
    match fuel with
    | O => Timeout
    | S fuel' => s' <- body s ;; while_loop fuel' guard body s'
    end
  else Return s.

(** [xs[k]] for [k >= 0]: [IndexError] past the end. *)
Definition getitem {A : Type} (xs : list A) (k : nat) : outcome A :=
  match nth_error xs k with
  | Some x => Return x
  | None => Raise IndexError
  end.

(** [xs.index(x)] on a list of strings: [ValueError] when [x] is absent. *)
Fixpoint list_index (x : string) (xs : list string) : outcome nat :=
  match xs with
  | [] => Raise ValueError
  | y :: xs' =>
      if String.eqb y x then Return O
      else k <- list_index x xs' ;; Return (S k)
  end.

(** [list.sort()] on instants, as a stable insertion sort. Equal integers
    are indistinguishable, so every sorting algorithm returns this list. *)
Fixpoint insert (x : Z) (l : list Z) : list Z :=
  match l with
  | [] => [x]
  | y :: l' => if x <=? y then x :: y :: l' else y :: insert x l'
  end.

Fixpoint sort (l : list Z) : list Z :=
  match l with
  | [] => []
  | x :: l' => insert x (sort l')
  end.

(** *** Insertion-ordered dicts with string keys *)

Definition dict (V : Type) : Type := list (string * V).

(** [d.get(k, default)] *)
Fixpoint dict_get {V : Type} (d : dict V) (k : string) (default : V) : V :=
  match d with
  | [] => default
  | (k', v) :: d' => if String.eqb k' k then v else dict_get d' k default
  end.

(** [d[k] = v]: an existing key keeps its position, a new key goes last. *)
Fixpoint dict_set {V : Type} (d : dict V) (k : string) (v : V) : dict V :=
  match d with
  | [] => [(k, v)]
  | (k', v') :: d' =>
      if String.eqb k' k then (k', v) :: d' else (k', v') :: dict_set d' k v
  end.

(** [sorted(d.items(), key=lambda x: x[1], reverse=True)].  Python's sort is
    stable and [reverse=True] keeps it so: items with equal values stay in
    their original order.  [insert_desc] puts an item in front of the first
    one whose value is not larger. *)
Fixpoint insert_desc (x : string * Z) (l : list (string * Z)) : list (string * Z) :=
  match l with
  | [] => [x]
  | y :: l' => if snd x <? snd y then y :: insert_desc x l' else x :: y :: l'
  end.

Fixpoint sorted_desc (l : list (string * Z)) : list (string * Z) :=
  match l with
  | [] => []
  | x :: l' => insert_desc x (sorted_desc l')
  end.

(** *** Strings

    A character is a code point below 256. *)

(** [str.isspace] on one character. *)
Definition is_space (c : ascii) : bool :=
  let k := nat_of_ascii c in
  ((9 <=? k) && (k <=? 13) || (28 <=? k) && (k <=? 32)
   || (k =? 133) || (k =? 160))%nat.

(** [s.split()]: the maximal runs of non-whitespace characters.  [tok] is the
    run being read. *)
Fixpoint split_from (tok : option string) (s : string) : list string :=
  match s with
  | EmptyString => match tok with Some t => [t] | None => [] end
  | String c s' =>
      if is_space c then
        match tok with
        | Some t => t :: split_from None s'
        | None => split_from None s'
        end
      else
        split_from (Some (match tok with
                          | Some t => t ++ String c EmptyString
                          | None => String c EmptyString
                          end)) s'
  end%string.

Definition split (s : string) : list string := split_from None s.

(** [sep.join(xs)] *)
Fixpoint join (sep : string) (xs : list string) : string :=
  match xs with
  | [] => EmptyString
  | [x] => x
  | x :: xs' => x ++ sep ++ join sep xs'
  end%string.

(** [needle in hay] *)
Fixpoint contains (needle hay : string) : bool :=
  String.prefix needle hay
  || match hay with
     | EmptyString => false
     | String _ hay' => contains needle hay'
     end.

Fixpoint mem_char (c : ascii) (chars : string) : bool :=
  match chars with
  | EmptyString => false
  | String c' chars' => Ascii.eqb c c' || mem_char c chars'
  end.

Fixpoint lstrip (chars s : string) : string :=
  match s with
  | EmptyString => EmptyString
  | String c s' => if mem_char c chars then lstrip chars s' else s
  end.

Fixpoint rstrip (chars s : string) : string :=
  match s with
  | EmptyString => EmptyString
  | String c s' =>
      match rstrip chars s' with
      | EmptyString => if mem_char c chars then EmptyString
                       else String c EmptyString
      | r => String c r
      end
  end.

(** [s.strip(chars)]: both ends. *)
Definition strip (chars s : string) : string := rstrip chars (lstrip chars s).

(** *** [datetime.strptime(f"2025 {ts_str}", "%Y %b %d %H:%M:%S")]

    For a [ts_str] without leading or trailing whitespace (a join of tokens).
    A blank of the format matches a run of whitespace; [%b] is an English
    month abbreviation in any letter case; [%d], [%H], [%M], [%S] are one or
    two digits in range; the date must exist in 2025.  The result is the
    instant in seconds since 2025-01-01T00:00:00. *)

Definition lower (c : ascii) : ascii :=
  let k := nat_of_ascii c in
  if ((65 <=? k) && (k <=? 90))%nat then ascii_of_nat (k + 32) else c.

Fixpoint lower_string (s : string) : string :=
  match s with
  | EmptyString => EmptyString
  | String c s' => String (lower c) (lower_string s')
  end.

Definition digit (c : ascii) : option nat :=
  let k := nat_of_ascii c in
  if ((48 <=? k) && (k <=? 57))%nat then Some (k - 48)%nat else None.

(** One or two decimal digits. *)
Definition number (s : string) : option nat :=
  match s with
  | String a EmptyString => digit a
  | String a (String b EmptyString) =>
      match digit a, digit b with
      | Some x, Some y => Some (10 * x + y)%nat
      | _, _ => None
      end
  | _ => None
  end.

Definition month_names : list string :=
  ["jan"; "feb"; "mar"; "apr"; "may"; "jun";
   "jul"; "aug"; "sep"; "oct"; "nov"; "dec"]%string.

Definition days_in_month_2025 : list nat :=
  [31; 28; 31; 30; 31; 30; 31; 31; 30; 31; 30; 31]%nat.

Fixpoint find_index (x : string) (xs : list string) : option nat :=
  match xs with
  | [] => None
  | y :: xs' => if String.eqb y x then Some O
                else option_map S (find_index x xs')
  end.

(** [s.split(sep)] for a one-character separator. *)
Fixpoint split_on (sep : ascii) (cur : string) (s : string) : list string :=
  match s with
  | EmptyString => [cur]
  | String c s' =>
      if Ascii.eqb c sep then cur :: split_on sep EmptyString s'
      else split_on sep (cur ++ String c EmptyString)%string s'
  end.

Definition strptime_2025 (ts_str : string) : outcome Z :=
  match split ts_str with
  | [b; d; hms] =>
      match split_on ":"%char EmptyString hms with
      | [hh; mm; ss] =>
          match find_index (lower_string b) month_names,
                number d, number hh, number mm, number ss with
          | Some m, Some day, Some h, Some mi, Some sec =>
              if ((1 <=? day) && (day <=? nth m days_in_month_2025 0)
                  && (h <=? 23) && (mi <=? 59) && (sec <=? 59))%nat
              then
                let yday := (list_sum (firstn m days_in_month_2025) + day - 1)%nat in
                Return (Z.of_nat (((yday * 24 + h) * 60 + mi) * 60 + sec))
              else Raise ValueError
          | _, _, _, _, _ => Raise ValueError
          end
      | _ => Raise ValueError
      end
  | _ => Raise ValueError
  end.

End Py.

(* ================================================================== *)
(** ** The burst detector ([brute_force]) *)

Module Detector.
Import Py.

(** One entry of [sus_incidents].  The script stores [times[i].isoformat()]
    and [times[j].isoformat()]; [first] and [last] are those two instants. *)
Record incident : Type := mkIncident {
  ip : string;
  count : Z;
  first : Z;
  last : Z
}.

(** [per_ip_timestamps]: a dict in insertion order. *)
Definition timeline : Type := dict (list Z).

(** [timedelta(minutes=max_minutes)], in seconds.  A [timedelta] holds at
    most 999999999 days either way, and the constructor raises
    [OverflowError] beyond: the number of days is [max_minutes // 1440]. *)
Definition timedelta_minutes (max_minutes : Z) : outcome Z :=
  if (-999999999 <=? max_minutes / 1440) && (max_minutes / 1440 <=? 999999999)
  then Return (60 * max_minutes)
  else Raise OverflowError.

Section PerOrigin.
Variable origin : string.
Variable times : list Z.     (* the list after [times.sort()] *)
Variable window : Z.
Variable threshold : Z.

(** [j + 1 < n and (times[j + 1] - times[i]) <= window] *)
Definition expand_guard (i j : nat) : outcome bool :=
  if (j + 1 <? List.length times)%nat then
    tj1 <- getitem times (j + 1) ;;
    ti <- getitem times i ;;
    Return (tj1 - ti <=? window)
  else Return false.

(** [j = i; while ...: j += 1] *)
Definition expand (i : nat) : outcome nat :=
  while_loop (List.length times) (expand_guard i)
             (fun j => Return (j + 1)%nat) i.

(** The body of [while i < n], on the state [(i, sus_incidents)]. *)
Definition scan_body (s : nat * list incident) : outcome (nat * list incident) :=
  let '(i, sus_incidents) := s in
  j <- expand i ;;
  let count := Z.of_nat j - Z.of_nat i + 1 in
  if threshold <=? count then
    ti <- getitem times i ;;
    tj <- getitem times j ;;
    Return ((j + 1)%nat, sus_incidents ++ [mkIncident origin count ti tj])
  else Return ((i + 1)%nat, sus_incidents).

Definition scan_guard (s : nat * list incident) : outcome bool :=
  Return (fst s <? List.length times)%nat.

(** [n = len(times); i = 0; while i < n: ...] *)
Definition scan (sus_incidents : list incident) : outcome (nat * list incident) :=
  while_loop (List.length times) scan_guard scan_body (0%nat, sus_incidents).

End PerOrigin.

(** [for ip, times in per_ip_timestamps.items(): times.sort(); ...].
    The result pairs [sus_incidents] with the dict as the loop leaves it:
    [times.sort()] sorts the list object the dict holds. *)
Fixpoint brute_force_items (items : timeline) (window threshold : Z)
         (sus_incidents : list incident) : outcome (list incident * timeline) :=
  match items with
  | [] => Return (sus_incidents, [])
  | (origin, times) :: rest =>
      let times' := sort times in
      '(_, sus') <- scan origin times' window threshold sus_incidents ;;
      '(result, rest') <- brute_force_items rest window threshold sus' ;;
      Return (result, (origin, times') :: rest')
  end.

Definition brute_force (per_ip_timestamps : timeline) (max_minutes threshold : Z)
  : outcome (list incident * timeline) :=
  window <- timedelta_minutes max_minutes ;;
  brute_force_items per_ip_timestamps window threshold [].

End Detector.

(* ================================================================== *)
(** ** The parser ([parse_auth_line]) *)

Module Parser.
Import Py.

Inductive event_type : Type := other | failed | accepted.

Definition event_type_eqb (a b : event_type) : bool :=
  match a, b with
  | other, other | failed, failed | accepted, accepted => true
  | _, _ => false
  end.

#[local] Open Scope string_scope.

(** The token after the first [from], stripped; [None] when [from] is the
    last token.  This is the body of the [try] block. *)
Definition ip_after_from (parts : list string) : outcome (option string) :=
  idx <- list_index "from" parts ;;
  if (idx + 1 <? List.length parts)%nat then
    ip_candidate <- getitem parts (idx + 1) ;;
    Return (Some (strip ",;" ip_candidate))
  else Return None.

Definition parse_auth_line (line : string)
  : outcome (option Z * option string * event_type) :=
  let parts := split line in
  if (List.length parts <? 3)%nat then Return (None, None, other)
  else
    let ts_str := join " " (firstn 3 parts) in
    match strptime_2025 ts_str with
    | Raise _ => Return (None, None, other)        (* except Exception *)
    | Timeout => Timeout
    | Return ts =>
        let event :=
          if contains "Failed password" line then failed
          else if contains "Accepted password" line
                  || contains "Accepted publickey" line then accepted
          else other in
        ip <- (if contains " from " line
               then try_except (ip_after_from parts) is_ValueError (Return None)
               else Return None) ;;
        Return (Some ts, ip, event)
    end.

End Parser.

(* ================================================================== *)
(** ** Grouping, aggregation and ranking ([main]) *)

Module Report.
Import Py Detector Parser.

(** [per_ip_timestamps[ip].append(ts)] on a [defaultdict(list)]. *)
Definition append_ts (per_ip : timeline) (origin : string) (ts : Z) : timeline :=
  dict_set per_ip origin (dict_get per_ip origin [] ++ [ts])%list.

(** [if ts and ip and event == "failed": ...]: a [datetime] is always true,
    a string is true when it is not empty. *)
Definition ingest_line (per_ip : timeline) (line : string) : outcome timeline :=
  '(ts, origin, event) <- parse_auth_line line ;;
  match ts, origin with
  | Some t, Some a =>
      if negb (String.eqb a EmptyString) && event_type_eqb event failed
      then Return (append_ts per_ip a t)
      else Return per_ip
  | _, _ => Return per_ip
  end.

Fixpoint ingest (per_ip : timeline) (lines : list string) : outcome timeline :=
  match lines with
  | [] => Return per_ip
  | line :: lines' =>
      per_ip' <- ingest_line per_ip line ;; ingest per_ip' lines'
  end.

(** [for inc in sus_incidents:
       summary[inc["ip"]] = summary.get(inc["ip"], 0) + inc["count"]] *)
Fixpoint summarize_into (summary : dict Z) (sus_incidents : list incident) : dict Z :=
  match sus_incidents with
  | [] => summary
  | inc :: rest =>
      summarize_into
        (dict_set summary (ip inc) (dict_get summary (ip inc) 0 + count inc))
        rest
  end.

Definition summarize (sus_incidents : list incident) : dict Z :=
  summarize_into [] sus_incidents.

(** [{ip: len(times) for ip, times in per_ip_timestamps.items()}] *)
Definition raw_counts (per_ip : timeline) : dict Z :=
  map (fun '(a, times) => (a, Z.of_nat (List.length times))) per_ip.

Definition is_empty {A : Type} (l : list A) : bool :=
  match l with [] => true | _ => false end.

(** [if not summary and per_ip_timestamps: summary = {...}] *)
Definition with_fallback (summary : dict Z) (per_ip : timeline) : dict Z :=
  if is_empty summary && negb (is_empty per_ip) then raw_counts per_ip
  else summary.

(** The aggregation of [main]: from the incident list and the dict to
    [top_attackers]. *)
Definition top_attackers (sus_incidents : list incident) (per_ip : timeline)
  : list (string * Z) :=
  sorted_desc (with_fallback (summarize sus_incidents) per_ip).

(** [main] without its printing, file writing and plotting: from the lines of
    the log to what is saved ([sus_incidents]) and ranked ([top_attackers]). *)
Definition main (lines : list string)
  : outcome (list incident * list (string * Z)) :=
  per_ip <- ingest [] lines ;;
  '(sus_incidents, per_ip') <- brute_force per_ip 10 5 ;;
  Return (sus_incidents, top_attackers sus_incidents per_ip').

End Report.

(* ================================================================== *)
(** ** The index trace of the detector

    What the two loops of [brute_force] compute, as structurally recursive
    functions: [cluster_end i] is the value of [j] when the inner loop
    leaves, [clusters fuel i] lists the index pairs [(i, j)] for which the
    outer loop, started at [i], appends an incident.  [Loops] proves that
    the loops return exactly these. *)

Module Trace.
Import Py Detector.

(** [xs[k]] for an index already known to be below [len(xs)]. *)
Definition at_index (xs : list Z) (k : nat) : Z := nth k xs 0.

Section PerOrigin.
Variable origin : string.
Variable times : list Z.
Variable window : Z.
Variable threshold : Z.

Definition within (i j : nat) : bool :=
  (j + 1 <? List.length times)%nat
  && (at_index times (j + 1) - at_index times i <=? window).

Fixpoint cluster_end_from (fuel : nat) (i j : nat) : nat :=
  match fuel with
  | O => j
  | S fuel' => if within i j then cluster_end_from fuel' i (j + 1) else j
  end.

Definition cluster_end (i : nat) : nat :=
  cluster_end_from (List.length times) i i.

Fixpoint clusters (fuel : nat) (i : nat) : list (nat * nat) :=
  match fuel with
  | O => []
  | S fuel' =>
      if (i <? List.length times)%nat then
        let j := cluster_end i in
        if threshold <=? Z.of_nat j - Z.of_nat i + 1
        then (i, j) :: clusters fuel' (j + 1)
        else clusters fuel' (i + 1)
      else []
  end.

(** The incident appended for the cluster [(i, j)]. *)
Definition incident_of (c : nat * nat) : incident :=
  mkIncident origin (Z.of_nat (snd c) - Z.of_nat (fst c) + 1)
             (at_index times (fst c)) (at_index times (snd c)).

(** What [cluster_end_from] keeps true of [j]. *)
Definition covers (i j : nat) : Prop :=
  (i <= j < List.length times)%nat /\
  forall k, (i < k <= j)%nat -> at_index times k - at_index times i <= window.

(** A cluster of the trace started at [i]: it begins at or after [i], ends
    where the inner loop stops, inside the list, and reaches the threshold. *)
Definition emitted (i : nat) (c : nat * nat) : Prop :=
  (i <= fst c)%nat /\ (fst c <= snd c < List.length times)%nat /\ snd c = cluster_end (fst c)
  /\ threshold <= Z.of_nat (snd c) - Z.of_nat (fst c) + 1.

End PerOrigin.

(** The clusters of one origin's list, which [brute_force] sorts first. *)
Definition clusters_of (times : list Z) (window threshold : Z) : list (nat * nat) :=
  clusters (sort times) window threshold (List.length (sort times)) 0.

Definition detect (window threshold : Z) (entry : string * list Z) : list incident :=
  map (incident_of (fst entry) (sort (snd entry)))
      (clusters_of (snd entry) window threshold).

(** The dict after [brute_force]: every list sorted. *)
Definition sorted_timeline (per_ip : timeline) : timeline :=
  map (fun entry => (fst entry, sort (snd entry))) per_ip.

(** The timestamps at the indices [i..j]. *)
Definition slice (xs : list Z) (i j : nat) : list Z :=
  firstn (j - i + 1) (skipn i xs).

(** Consecutive clusters: the next one starts after the previous one ends. *)
Definition before (c c' : nat * nat) : Prop := (snd c < fst c')%nat.

End Trace.

(* ================================================================== *)
(** ** The vocabulary of the specification, and its scenarios *)

Module Words.
Import Py Detector Parser Report.

#[local] Open Scope string_scope.

(** The origin candidate in the words of the specification: the token that
    follows the first token [from], if there is one. *)
Fixpoint token_after_from (parts : list string) : option string :=
  match parts with
  | [] => None
  | p :: rest => if String.eqb p "from" then hd_error rest
                 else token_after_from rest
  end.

(** The event kind, as the [if]/[elif] chain computes it. *)
Definition classify (line : string) : event_type :=
  if contains "Failed password" line then failed
  else if contains "Accepted password" line
          || contains "Accepted publickey" line then accepted
  else other.

(** The origins in the order in which they are first observed. *)
Fixpoint first_seen (origins : list string) : list string :=
  match origins with
  | [] => []
  | a :: rest => a :: filter (fun b => negb (String.eqb b a)) (first_seen rest)
  end.

(** The sum of the counts of the incidents of one origin. *)
Fixpoint total_count (origin : string) (sus_incidents : list incident) : Z :=
  match sus_incidents with
  | [] => 0
  | inc :: rest =>
      (if String.eqb (ip inc) origin then count inc else 0)
      + total_count origin rest
  end.

Definition has_key {V} (d : dict V) (k : string) : bool :=
  existsb (fun entry => String.eqb (fst entry) k) d.

Definition fresh (seen : list string) (a : string) : bool :=
  negb (existsb (fun b => String.eqb b a) seen).

(** Descending order of total. *)
Definition ranks_before (x y : string * Z) : Prop := snd y <= snd x.

Definition has_total (v : Z) (x : string * Z) : bool := (snd x =? v)%Z.

(** Scenario A of the specification: five attempts one minute apart. *)
Definition scenario_A : timeline := [("203.0.113.45", [0; 60; 120; 180; 240])].

(** Five attempts within four minutes, and five attempts one hour apart. *)
Definition burst : timeline := [("203.0.113.45", [0; 60; 120; 180; 240])].
Definition sparse : timeline := [("203.0.113.45", [0; 3600; 7200; 10800; 14400])].

(** Two bursts half an hour apart, and a list that is not in order. *)
Definition two_bursts : timeline :=
  [("203.0.113.45", [0; 60; 120; 180; 240; 1800; 1860; 1920; 1980; 2040])].
Definition unsorted : timeline := [("10.0.0.1", [2; 1])].

(** A line whose [from] is followed by a tab, not by a blank. *)
Definition tab : string := String "009"%char EmptyString.

Definition tabbed_line : string :=
  "Mar 10 13:58:01 host1 sshd[1023]: Failed password for root from"
  ++ tab ++ "203.0.113.45".

End Words.

(* ================================================================== *)
(** ** What [main] prints and plots *)

Module Output.
Import Py Detector.

(** One call of [print] in [print_incidents_preview]: the headline with the
    number of incidents, one incident, or the three dots. *)
Inductive printed : Type :=
| Detected (n : nat)
| Shown (inc : incident)
| Dots.

(** [xs[:k]]: a negative [k] counts from the end. *)
Definition slice_to {A : Type} (xs : list A) (k : Z) : list A :=
  if 0 <=? k then firstn (Z.to_nat k) xs
  else firstn (Z.to_nat (Z.of_nat (List.length xs) + k)) xs.

(** [print_incidents_preview(sus_incidents, preview)], as the list of what
    it prints. *)
Definition print_incidents_preview (sus_incidents : list incident) (preview : Z)
  : list printed :=
  Detected (List.length sus_incidents)
  :: map Shown (slice_to sus_incidents preview)
  ++ (if preview <? Z.of_nat (List.length sus_incidents) then [Dots] else []).

(** [top_attackers[:10]], which [main] prints, and the two lists it hands
    to [plt.bar]: [[ip for ip, cnt in top_attackers[:10]]] and
    [[cnt for ip, cnt in top_attackers[:10]]]. *)
Definition top_ten (top_attackers : list (string * Z)) : list (string * Z) :=
  slice_to top_attackers 10.

Definition ips (top_attackers : list (string * Z)) : list string :=
  map (fun '(ip, cnt) => ip) (top_ten top_attackers).

Definition counts (top_attackers : list (string * Z)) : list Z :=
  map (fun '(ip, cnt) => cnt) (top_ten top_attackers).

End Output.

(* ================================================================== *)
(** ** Measures in which the further properties are stated *)

Module Measures.
Import Py Detector Parser Report Trace.

(** The sum of the counts of a list of incidents. *)
Definition sum_counts (sus_incidents : list incident) : Z :=
  fold_right (fun inc acc => count inc + acc) 0 sus_incidents.

(** The number of timestamps a timeline holds. *)
Definition total_stamps (per_ip : timeline) : Z :=
  fold_right (fun entry acc => Z.of_nat (List.length (snd entry)) + acc) 0 per_ip.

(** The sum of the totals of a summary. *)
Definition sum_totals (summary : list (string * Z)) : Z :=
  fold_right (fun entry acc => snd entry + acc) 0 summary.

(** The number of indices a list of clusters covers. *)
Definition covered (cl : list (nat * nat)) : nat :=
  fold_right (fun c acc => (snd c - fst c + 1 + acc)%nat) 0%nat cl.

(** What a line adds to the timeline: the origin and the instant of a
    failed attempt that has both, nothing otherwise. *)
Definition attempt (line : string) : option (string * Z) :=
  match parse_auth_line line with
  | Return (Some ts, Some origin, failed) =>
      if String.eqb origin EmptyString then None else Some (origin, ts)
  | _ => None
  end.

(** The instants of the attempts of one origin, in the order of the lines. *)
Fixpoint stamps_of (origin : string) (lines : list string) : list Z :=
  match lines with
  | [] => []
  | line :: rest =>
      match attempt line with
      | Some (a, ts) =>
          if String.eqb a origin then ts :: stamps_of origin rest
          else stamps_of origin rest
      | None => stamps_of origin rest
      end
  end.

(** The number of lines that are attempts. *)
Definition attempts (lines : list string) : Z :=
  Z.of_nat (List.length (filter (fun line => match attempt line with
                                             | Some _ => true
                                             | None => false
                                             end) lines)).

Definition first_char (s : string) : option ascii :=
  match s with
  | EmptyString => None
  | String c _ => Some c
  end.

Fixpoint last_char (s : string) : option ascii :=
  match s with
  | EmptyString => None
  | String c EmptyString => Some c
  | String _ s' => last_char s'
  end.

(** The one incident of a list that lies within the window as a whole. *)
Definition whole (entry : string * list Z) : incident :=
  mkIncident (fst entry) (Z.of_nat (List.length (snd entry)))
             (at_index (sort (snd entry)) 0)
             (at_index (sort (snd entry)) (List.length (snd entry) - 1)).

(** Two timelines with the same origins in the same order, each with the
    same timestamps in some order. *)
Definition same_attempts (per_ip per_ip' : timeline) : Prop :=
  Forall2 (fun entry entry' =>
             fst entry = fst entry' /\ Permutation (snd entry) (snd entry'))
          per_ip per_ip'.

(** What the grouping keeps true of the timeline: every origin once, none
    empty, none without a timestamp. *)
Definition well_grouped (per_ip : timeline) : Prop :=
  NoDup (map fst per_ip) /\
  Forall (fun entry => fst entry <> EmptyString /\ snd entry <> []) per_ip.

(** Descending. *)
Definition descending (x y : Z) : Prop := y <= x.

End Measures.

(* ================================================================== *)
(** ** Facts about the primitives *)

Module PyFacts.
Import Py.

Lemma insert_perm x l : Permutation (x :: l) (insert x l).
Proof.
  induction l as [|y l IH]; simpl; [reflexivity|].
  destruct (x <=? y); [reflexivity|].
  rewrite perm_swap. now apply perm_skip.
Qed.

Lemma sort_perm l : Permutation l (sort l).
Proof.
  induction l as [|x l IH]; simpl; [constructor|].
  rewrite <- insert_perm. now apply perm_skip.
Qed.

Lemma sort_length l : List.length (sort l) = List.length l.
Proof. symmetry. apply Permutation_length, sort_perm. Qed.

Lemma insert_sorted x l :
  StronglySorted Z.le l -> StronglySorted Z.le (insert x l).
Proof.
  induction 1 as [|y l Hs IH Hall]; simpl.
  - repeat constructor.
  - destruct (x <=? y) eqn:E.
    + apply Z.leb_le in E. constructor; [now constructor|].
      constructor; [assumption|].
      eapply Forall_impl; [|exact Hall]. simpl. intros; lia.
    + apply Z.leb_gt in E. constructor; [assumption|].
      eapply Permutation_Forall; [apply insert_perm|].
      constructor; [lia|assumption].
Qed.

Lemma sort_sorted l : StronglySorted Z.le (sort l).
Proof.
  induction l; simpl; [constructor|now apply insert_sorted].
Qed.

Lemma insert_head x l : Forall (fun y => x <= y) l -> insert x l = x :: l.
Proof.
  destruct 1 as [|y l Hy _]; simpl; [reflexivity|].
  apply Z.leb_le in Hy. now rewrite Hy.
Qed.

Lemma sort_fixed l : StronglySorted Z.le l -> sort l = l.
Proof.
  induction 1 as [|x l Hs IH Hall]; simpl; [reflexivity|].
  rewrite IH. now apply insert_head.
Qed.

Lemma sorted_nth l :
  StronglySorted Z.le l ->
  forall i j, (i <= j < List.length l)%nat -> nth i l 0 <= nth j l 0.
Proof.
  induction 1 as [|x l Hs IH Hall]; simpl; intros i j Hij; [lia|].
  destruct i as [|i], j as [|j]; try lia.
  - rewrite Forall_forall in Hall. apply Hall, nth_In. lia.
  - apply IH. lia.
Qed.

Lemma getitem_nth {A} (xs : list A) k d :
  (k < List.length xs)%nat -> getitem xs k = Return (nth k xs d).
Proof.
  intros H. unfold getitem.
  destruct (nth_error xs k) eqn:E.
  - now rewrite (nth_error_nth _ _ d E).
  - apply nth_error_None in E. lia.
Qed.

End PyFacts.

(* ================================================================== *)
(** ** The loops of [brute_force] return their index trace *)

Module Loops.
Import Py Detector Trace PyFacts.

Section PerOrigin.
Variable origin : string.
Variable times : list Z.
Variable window : Z.
Variable threshold : Z.

#[local] Abbreviation n := (List.length times).
#[local] Abbreviation E := (cluster_end times window).

Lemma expand_guard_within i j :
  (i < n)%nat -> expand_guard times window i j = Return (within times window i j).
Proof.
  intros Hi. unfold expand_guard, within.
  destruct (j + 1 <? n)%nat eqn:Hj; [|reflexivity].
  apply Nat.ltb_lt in Hj.
  rewrite (getitem_nth times (j + 1) 0 Hj), (getitem_nth times i 0 Hi).
  reflexivity.
Qed.

(** The inner loop leaves through its guard, within [n] iterations. *)
Lemma expand_loop i :
  (i < n)%nat ->
  forall fuel j, (n <= fuel + j + 1)%nat ->
    while_loop fuel (expand_guard times window i)
               (fun j => Return (j + 1)%nat) j
    = Return (cluster_end_from times window fuel i j).
Proof.
  intros Hi. induction fuel as [|fuel IH]; intros j Hj; simpl;
    rewrite (expand_guard_within i j Hi); simpl.
  - unfold within. replace (j + 1 <? n)%nat with false; [reflexivity|].
    symmetry. apply Nat.ltb_ge. lia.
  - destruct (within times window i j) eqn:G; [|reflexivity].
    apply IH. lia.
Qed.

Lemma expand_cluster_end i :
  (i < n)%nat -> expand times window i = Return (E i).
Proof. intros Hi. apply expand_loop; [assumption|lia]. Qed.

Lemma cluster_end_from_covers i :
  forall fuel j, covers times window i j ->
    covers times window i (cluster_end_from times window fuel i j)
    /\ (j <= cluster_end_from times window fuel i j)%nat
    /\ ((n <= fuel + j + 1)%nat ->
        within times window i (cluster_end_from times window fuel i j) = false).
Proof.
  induction fuel as [|fuel IH]; intros j Hc; simpl.
  - repeat split; try apply Hc; try lia.
    intros Hn. unfold within.
    replace (j + 1 <? n)%nat with false; [reflexivity|].
    symmetry. apply Nat.ltb_ge. lia.
  - destruct (within times window i j) eqn:G.
    + assert (Hc' : covers times window i (j + 1)).
      { unfold within in G. apply andb_true_iff in G as [G1 G2].
        apply Nat.ltb_lt in G1. apply Z.leb_le in G2.
        destruct Hc as [Hr Hk]. split; [lia|].
        intros k Hk'. destruct (Nat.eq_dec k (j + 1)) as [->|Hne];
          [assumption|apply Hk; lia]. }
      destruct (IH (j + 1)%nat Hc') as (H1 & H2 & H3).
      repeat split; try apply H1; try lia. intros Hn. apply H3. lia.
    + repeat split; try apply Hc; try lia. intros _. exact G.
Qed.

Lemma covers_refl i : (i < n)%nat -> covers times window i i.
Proof. intros Hi. split; [lia|]. intros k Hk. lia. Qed.

Lemma cluster_end_range i : (i < n)%nat -> (i <= E i < n)%nat.
Proof.
  intros Hi.
  destruct (cluster_end_from_covers i n i (covers_refl i Hi)) as ((Hr & _) & _).
  exact Hr.
Qed.

Lemma cluster_end_within i k :
  (i < n)%nat -> (i < k <= E i)%nat ->
  at_index times k - at_index times i <= window.
Proof.
  intros Hi.
  destruct (cluster_end_from_covers i n i (covers_refl i Hi)) as ((_ & Hk) & _).
  apply Hk.
Qed.

Lemma cluster_end_maximal i :
  (i < n)%nat -> (E i + 1 < n)%nat ->
  window < at_index times (E i + 1) - at_index times i.
Proof.
  intros Hi Hlt.
  destruct (cluster_end_from_covers i n i (covers_refl i Hi)) as (_ & _ & Hg).
  assert (G : within times window i (E i) = false) by (apply Hg; lia).
  unfold within in G. apply andb_false_iff in G as [G|G].
  - apply Nat.ltb_ge in G. lia.
  - now apply Z.leb_gt in G.
Qed.

(** On a sorted list a later anchor reaches at least as far. *)
Lemma cluster_end_mono i i' :
  StronglySorted Z.le times ->
  (i <= i')%nat -> (i' < n)%nat -> (E i <= E i')%nat.
Proof.
  intros Hs Hii Hi'.
  assert (Hi : (i < n)%nat) by lia.
  destruct (le_lt_dec (E i) (E i')) as [|Hlt]; [assumption|exfalso].
  pose proof (cluster_end_range i Hi) as Hr.
  pose proof (cluster_end_range i' Hi') as Hr'.
  assert (H1 : at_index times (E i' + 1) - at_index times i <= window)
    by (apply cluster_end_within; [assumption|lia]).
  assert (H2 : window < at_index times (E i' + 1) - at_index times i')
    by (apply cluster_end_maximal; [assumption|lia]).
  assert (H3 : at_index times i <= at_index times i')
    by (apply sorted_nth; [assumption|lia]).
  lia.
Qed.

(** The outer loop, from any state, given [n - i] iterations. *)
Lemma scan_loop :
  forall fuel i sus, (n <= fuel + i)%nat ->
    exists i',
      while_loop fuel (scan_guard times) (scan_body origin times window threshold)
                 (i, sus)
      = Return (i', sus ++ map (incident_of origin times)
                               (clusters times window threshold fuel i))
      /\ (n <= i')%nat.
Proof.
  induction fuel as [|fuel IH]; intros i sus Hf.
  - exists i. simpl. unfold scan_guard. simpl.
    replace (i <? n)%nat with false by (symmetry; apply Nat.ltb_ge; lia).
    rewrite app_nil_r. split; [reflexivity|lia].
  - cbn [while_loop clusters]. unfold scan_guard at 1. cbn [bind fst].
    destruct (i <? n)%nat eqn:Hi.
    + apply Nat.ltb_lt in Hi.
      pose proof (cluster_end_range i Hi) as Hr.
      unfold scan_body at 1. rewrite (expand_cluster_end i Hi). cbn [bind].
      destruct (threshold <=? Z.of_nat (E i) - Z.of_nat i + 1) eqn:Ht.
      * rewrite (getitem_nth times i 0 Hi).
        rewrite (getitem_nth times (E i) 0) by lia. cbn [bind].
        destruct (IH (E i + 1)%nat
                     (sus ++ [mkIncident origin (Z.of_nat (E i) - Z.of_nat i + 1)
                                         (nth i times 0) (nth (E i) times 0)]))
          as (i' & Hrun & Hi'); [lia|].
        exists i'. split; [|assumption].
        rewrite Hrun. cbn [map]. rewrite <- app_assoc. reflexivity.
      * destruct (IH (i + 1)%nat sus) as (i' & Hrun & Hi'); [lia|].
        exists i'. split; assumption.
    + apply Nat.ltb_ge in Hi. exists i. rewrite app_nil_r.
      split; [reflexivity|assumption].
Qed.

End PerOrigin.

Lemma scan_detect origin times window threshold sus :
  exists i',
    scan origin (sort times) window threshold sus
    = Return (i', sus ++ detect window threshold (origin, times))
    /\ (List.length (sort times) <= i')%nat.
Proof.
  unfold scan, detect, clusters_of. apply scan_loop. simpl. lia.
Qed.

Lemma brute_force_items_spec window threshold :
  forall items sus,
    brute_force_items items window threshold sus
    = Return (sus ++ flat_map (detect window threshold) items,
              sorted_timeline items).
Proof.
  induction items as [|[origin times] rest IH]; intros sus; simpl.
  - now rewrite app_nil_r.
  - destruct (scan_detect origin times window threshold sus) as (i' & Hrun & _).
    rewrite Hrun. cbn [bind]. rewrite IH. cbn [bind].
    rewrite <- app_assoc. reflexivity.
Qed.

(** [brute_force] raises [OverflowError] when the window is not a
    [timedelta], and returns the incidents of every origin otherwise. *)
Lemma brute_force_unfold per_ip max_minutes threshold :
  brute_force per_ip max_minutes threshold
  = (window <- timedelta_minutes max_minutes ;;
     Return (flat_map (detect window threshold) per_ip, sorted_timeline per_ip)).
Proof.
  unfold brute_force. destruct (timedelta_minutes max_minutes); simpl;
    [apply brute_force_items_spec|reflexivity|reflexivity].
Qed.

Lemma brute_force_spec per_ip max_minutes threshold window :
  timedelta_minutes max_minutes = Return window ->
  brute_force per_ip max_minutes threshold
  = Return (flat_map (detect window threshold) per_ip, sorted_timeline per_ip).
Proof. intros Hw. now rewrite brute_force_unfold, Hw. Qed.

End Loops.

(* ================================================================== *)
(** ** Properties of the clusters *)

Module ClusterFacts.
Import Py Detector Trace PyFacts Loops.

Section PerOrigin.
Variable times : list Z.
Variable window : Z.

#[local] Abbreviation n := (List.length times).
#[local] Abbreviation E := (cluster_end times window).

Lemma clusters_step threshold fuel i :
  clusters times window threshold (S fuel) i
  = if (i <? n)%nat then
      if threshold <=? Z.of_nat (E i) - Z.of_nat i + 1
      then (i, E i) :: clusters times window threshold fuel (E i + 1)
      else clusters times window threshold fuel (i + 1)
    else [].
Proof. reflexivity. Qed.

Lemma emitted_weaken threshold i i' c :
  (i <= i')%nat -> emitted times window threshold i' c -> emitted times window threshold i c.
Proof. unfold emitted. intros Hi (H1 & H2); split; [lia|assumption]. Qed.

Lemma clusters_emitted threshold :
  forall fuel i, Forall (emitted times window threshold i) (clusters times window threshold fuel i).
Proof.
  induction fuel as [|fuel IH]; intros i; [constructor|].
  rewrite clusters_step.
  destruct (i <? n)%nat eqn:Hi; [|constructor].
  apply Nat.ltb_lt in Hi. pose proof (cluster_end_range times window i Hi) as Hr.
  destruct (threshold <=? _) eqn:Ht.
  - apply Z.leb_le in Ht. constructor.
    + unfold emitted; simpl. repeat split; try lia.
    + eapply Forall_impl; [|apply (IH (E i + 1)%nat)].
      intros c. apply emitted_weaken. lia.
  - eapply Forall_impl; [|apply (IH (i + 1)%nat)].
    intros c. apply emitted_weaken. lia.
Qed.

Lemma clusters_sorted threshold :
  forall fuel i, StronglySorted before (clusters times window threshold fuel i).
Proof.
  induction fuel as [|fuel IH]; intros i; [constructor|].
  rewrite clusters_step.
  destruct (i <? n)%nat eqn:Hi; [|constructor].
  destruct (threshold <=? _); [|apply IH].
  constructor; [apply IH|].
  eapply Forall_impl; [|apply (clusters_emitted threshold fuel (E i + 1)%nat)].
  intros c (Hc & _). unfold before; simpl. lia.
Qed.

(** Raising the threshold never yields more clusters.  The run with the
    lower threshold [t1] is never behind the one with [t2]. *)
Lemma clusters_length_mono t1 t2 :
  StronglySorted Z.le times -> t1 <= t2 ->
  forall k fuel1 fuel2 i1 i2,
    (fuel1 + fuel2 <= k)%nat -> (i1 <= i2)%nat ->
    (n <= fuel1 + i1)%nat -> (n <= fuel2 + i2)%nat ->
    (List.length (clusters times window t2 fuel2 i2)
     <= List.length (clusters times window t1 fuel1 i1))%nat.
Proof.
  intros Hs Ht. induction k as [|k IH]; intros fuel1 fuel2 i1 i2 Hk Hi H1 H2.
  - assert (fuel2 = 0%nat) as -> by lia. simpl. lia.
  - destruct fuel2 as [|f2]; [simpl; lia|].
    rewrite (clusters_step t2).
    destruct (i2 <? n)%nat eqn:Hi2; [|simpl; lia].
    apply Nat.ltb_lt in Hi2.
    destruct (t2 <=? Z.of_nat (E i2) - Z.of_nat i2 + 1) eqn:Ht2.
    + apply Z.leb_le in Ht2.
      destruct fuel1 as [|f1]; [lia|].
      rewrite (clusters_step t1).
      replace (i1 <? n)%nat with true by (symmetry; apply Nat.ltb_lt; lia).
      pose proof (cluster_end_range times window i1 ltac:(lia)) as Hr1.
      destruct (t1 <=? Z.of_nat (E i1) - Z.of_nat i1 + 1) eqn:Ht1.
      * pose proof (cluster_end_range times window i2 Hi2) as Hr2.
        pose proof (cluster_end_mono times window i1 i2 Hs Hi Hi2) as Hm.
        simpl. apply le_n_S. apply IH; lia.
      * apply Z.leb_gt in Ht1.
        assert (i1 <> i2) by (intros ->; lia).
        change (S (List.length (clusters times window t2 f2 (E i2 + 1))))
          with (List.length ((i2, E i2) :: clusters times window t2 f2 (E i2 + 1))).
        assert (Hfold : (i2, E i2) :: clusters times window t2 f2 (E i2 + 1)
                        = clusters times window t2 (S f2) i2).
        { rewrite clusters_step.
          replace (i2 <? n)%nat with true by (symmetry; apply Nat.ltb_lt; lia).
          apply Z.leb_le in Ht2. now rewrite Ht2. }
        rewrite Hfold. apply IH; lia.
    + apply IH; lia.
Qed.

End PerOrigin.

Lemma clusters_of_emitted times window threshold :
  Forall (emitted (sort times) window threshold 0)
         (clusters_of times window threshold).
Proof. apply clusters_emitted. Qed.

Lemma clusters_of_sorted times window threshold :
  StronglySorted before (clusters_of times window threshold).
Proof. apply clusters_sorted. Qed.

Lemma clusters_of_mono times window t1 t2 :
  t1 <= t2 ->
  (List.length (clusters_of times window t2)
   <= List.length (clusters_of times window t1))%nat.
Proof.
  intros Ht. unfold clusters_of.
  eapply clusters_length_mono; try eassumption; try apply sort_sorted;
    try reflexivity; lia.
Qed.

Lemma detect_length window threshold entry :
  List.length (detect window threshold entry)
  = List.length (clusters_of (snd entry) window threshold).
Proof. unfold detect. apply length_map. Qed.

Lemma flat_map_length_le {A B} (f g : A -> list B) l :
  (forall a, (List.length (f a) <= List.length (g a))%nat) ->
  (List.length (flat_map f l) <= List.length (flat_map g l))%nat.
Proof.
  intros H. induction l as [|a l IH]; simpl; [lia|].
  rewrite !length_app. specialize (H a). lia.
Qed.

End ClusterFacts.

(* ================================================================== *)
(** ** The detector: what [brute_force] guarantees *)

Module DetectorSpec.
Import Py Detector Trace Words PyFacts Loops ClusterFacts.

#[local] Open Scope string_scope.

Lemma slice_length xs i j :
  (i <= j < List.length xs)%nat -> List.length (slice xs i j) = (j - i + 1)%nat.
Proof.
  intros H. unfold slice. rewrite length_firstn, length_skipn. lia.
Qed.

Lemma at_index_nth_error xs k :
  (k < List.length xs)%nat -> nth_error xs k = Some (at_index xs k).
Proof. intros H. unfold at_index. now apply nth_error_nth'. Qed.

Lemma in_detect window threshold entry inc :
  In inc (detect window threshold entry) ->
  exists c, In c (clusters_of (snd entry) window threshold)
            /\ inc = incident_of (fst entry) (sort (snd entry)) c.
Proof.
  unfold detect. intros H. apply in_map_iff in H as (c & Hc & Hin).
  exists c. split; [assumption|now symmetry].
Qed.

Lemma timedelta_in_range max_minutes :
  -999999999 * 1440 <= max_minutes < 1000000000 * 1440 ->
  exists window, timedelta_minutes max_minutes = Return window.
Proof.
  intros Hm. unfold timedelta_minutes.
  assert (H1 : -999999999 <= max_minutes / 1440)
    by (apply Z.div_le_lower_bound; lia).
  assert (H2 : max_minutes / 1440 < 1000000000)
    by (apply Z.div_lt_upper_bound; lia).
  assert (H3 : max_minutes / 1440 <= 999999999) by lia.
  apply Z.leb_le in H1, H3. rewrite H1, H3. now eexists.
Qed.

(** C1: for every timeline and every threshold >= 1, [brute_force] returns,
    and each incident it returns was emitted for a cluster [(i, j)] of its
    origin's sorted list: [count] is the number of timestamps at the indices
    [i..j], that is [j - i + 1], [count >= threshold], [first] and [last]
    are the timestamps at [i] and [j], and [last >= first]. *)
Theorem incident_fields per_ip max_minutes threshold window :
  1 <= threshold ->
  timedelta_minutes max_minutes = Return window ->
  exists incs per_ip',
    brute_force per_ip max_minutes threshold = Return (incs, per_ip') /\
    Forall (fun inc =>
      exists times i j,
        In (ip inc, times) per_ip /\
        In (i, j) (clusters_of times window threshold) /\
        (i <= j < List.length (sort times))%nat /\
        count inc = Z.of_nat (List.length (slice (sort times) i j)) /\
        count inc = Z.of_nat j - Z.of_nat i + 1 /\
        threshold <= count inc /\
        nth_error (sort times) i = Some (first inc) /\
        nth_error (sort times) j = Some (last inc) /\
        first inc <= last inc) incs.
Proof.
  intros _ Hw. eexists _, _. split; [apply (brute_force_spec _ _ _ _ Hw)|].
  apply Forall_forall. intros inc Hin.
  apply in_flat_map in Hin as ([origin times] & Hentry & Hin).
  apply in_detect in Hin as ([i j] & Hc & ->). simpl in *.
  pose proof (clusters_of_emitted times window threshold) as He.
  rewrite Forall_forall in He. destruct (He _ Hc) as (_ & Hr & _ & Ht). simpl in *.
  exists times, i, j. repeat split; try assumption; try lia.
  - rewrite slice_length by lia. lia.
  - apply at_index_nth_error. lia.
  - apply at_index_nth_error. lia.
  - apply sorted_nth; [apply sort_sorted|lia].
Qed.

Lemma incident_fields_witness :
  1 <= 5 /\
  timedelta_minutes 10 = Return 600 /\
  exists incs per_ip',
    brute_force scenario_A 10 5 = Return (incs, per_ip') /\
    Forall (fun inc =>
      exists times i j,
        In (ip inc, times) scenario_A /\
        In (i, j) (clusters_of times 600 5) /\
        (i <= j < List.length (sort times))%nat /\
        count inc = Z.of_nat (List.length (slice (sort times) i j)) /\
        count inc = Z.of_nat j - Z.of_nat i + 1 /\
        5 <= count inc /\
        nth_error (sort times) i = Some (first inc) /\
        nth_error (sort times) j = Some (last inc) /\
        first inc <= last inc) incs.
Proof.
  split; [lia|]. split; [reflexivity|].
  apply (incident_fields scenario_A 10 5 600); [lia|reflexivity].
Defined.

Lemma sorted_before_starts cl :
  StronglySorted before cl ->
  Forall (fun c => (fst c <= snd c)%nat) cl ->
  StronglySorted (fun c c' => (fst c < fst c')%nat) cl.
Proof.
  induction 1 as [|c cl Hs IH Hall]; intros Hwf; [constructor|].
  inversion Hwf as [|? ? Hc Hwf']; subst.
  constructor; [now apply IH|].
  eapply Forall_impl; [|exact Hall]. unfold before. simpl. intros; lia.
Qed.

Lemma sorted_before_nth cl :
  StronglySorted before cl ->
  forall p q c c', (p < q)%nat ->
    nth_error cl p = Some c -> nth_error cl q = Some c' -> before c c'.
Proof.
  induction 1 as [|c0 cl Hs IH Hall]; intros p q c c' Hpq Hp Hq.
  - destruct p; discriminate.
  - destruct q as [|q]; [lia|]. simpl in Hq.
    destruct p as [|p]; simpl in Hp.
    + injection Hp as <-. rewrite Forall_forall in Hall.
      apply Hall. eapply nth_error_In; eassumption.
    + eapply (IH p q); try eassumption. lia.
Qed.

Lemma sorted_before_disjoint cl :
  StronglySorted before cl ->
  Forall (fun c => (fst c <= snd c)%nat) cl ->
  forall p q c c' k,
    nth_error cl p = Some c -> nth_error cl q = Some c' ->
    (fst c <= k <= snd c)%nat -> (fst c' <= k <= snd c')%nat -> p = q.
Proof.
  intros Hs Hwf p q c c' k Hp Hq Hk Hk'.
  destruct (Nat.lt_trichotomy p q) as [Hlt|[Heq|Hgt]]; [exfalso|assumption|exfalso].
  - pose proof (sorted_before_nth cl Hs p q c c' Hlt Hp Hq) as Hb.
    unfold before in Hb. lia.
  - pose proof (sorted_before_nth cl Hs q p c' c Hgt Hq Hp) as Hb.
    unfold before in Hb. lia.
Qed.

(** C2: the incidents of each origin are the images of its clusters, in
    order; the clusters' start indices increase strictly, each cluster ends
    before the next one starts, and no index of the sorted list lies in two
    clusters. *)
Theorem incidents_ordered_disjoint per_ip max_minutes threshold window :
  timedelta_minutes max_minutes = Return window ->
  exists per_ip',
    brute_force per_ip max_minutes threshold
    = Return (flat_map (detect window threshold) per_ip, per_ip') /\
    forall origin times,
      exists cl,
        cl = clusters_of times window threshold /\
        detect window threshold (origin, times)
        = map (incident_of origin (sort times)) cl /\
        Forall (fun c => (fst c <= snd c < List.length (sort times))%nat) cl /\
        StronglySorted (fun c c' => (fst c < fst c')%nat) cl /\
        StronglySorted before cl /\
        (forall p q c c' k,
            nth_error cl p = Some c -> nth_error cl q = Some c' ->
            (fst c <= k <= snd c)%nat -> (fst c' <= k <= snd c')%nat -> p = q).
Proof.
  intros Hw. eexists. split; [apply (brute_force_spec _ _ _ _ Hw)|].
  intros origin times. eexists. split; [reflexivity|].
  pose proof (clusters_of_emitted times window threshold) as He.
  pose proof (clusters_of_sorted times window threshold) as Hs.
  assert (Hwf : Forall (fun c => (fst c <= snd c)%nat)
                       (clusters_of times window threshold)).
  { eapply Forall_impl; [|exact He]. intros c (_ & Hr & _). lia. }
  repeat split.
  - eapply Forall_impl; [|exact He]. intros c (_ & Hr & _). exact Hr.
  - now apply sorted_before_starts.
  - exact Hs.
  - now apply sorted_before_disjoint.
Qed.

Lemma incidents_ordered_disjoint_witness :
  timedelta_minutes 10 = Return 600 /\
  exists per_ip',
    brute_force two_bursts 10 5
    = Return (flat_map (detect 600 5) two_bursts, per_ip') /\
    forall origin times,
      exists cl,
        cl = clusters_of times 600 5 /\
        detect 600 5 (origin, times)
        = map (incident_of origin (sort times)) cl /\
        Forall (fun c => (fst c <= snd c < List.length (sort times))%nat) cl /\
        StronglySorted (fun c c' => (fst c < fst c')%nat) cl /\
        StronglySorted before cl /\
        (forall p q c c' k,
            nth_error cl p = Some c -> nth_error cl q = Some c' ->
            (fst c <= k <= snd c)%nat -> (fst c' <= k <= snd c')%nat -> p = q).
Proof.
  split; [reflexivity|].
  apply (incidents_ordered_disjoint two_bursts 10 5 600). reflexivity.
Defined.

(** C3: for a fixed timeline and window and thresholds [t1 <= t2],
    [brute_force] with [t2] returns at most as many incidents as with [t1]. *)
Theorem threshold_monotone per_ip max_minutes t1 t2 window :
  t1 <= t2 ->
  timedelta_minutes max_minutes = Return window ->
  exists incs1 incs2 per_ip1 per_ip2,
    brute_force per_ip max_minutes t1 = Return (incs1, per_ip1) /\
    brute_force per_ip max_minutes t2 = Return (incs2, per_ip2) /\
    (List.length incs2 <= List.length incs1)%nat.
Proof.
  intros Ht Hw. eexists _, _, _, _.
  split; [apply (brute_force_spec _ _ _ _ Hw)|]. split; [apply (brute_force_spec _ _ _ _ Hw)|].
  apply flat_map_length_le. intros entry.
  rewrite !detect_length. now apply clusters_of_mono.
Qed.

Lemma threshold_monotone_witness :
  5 <= 6 /\
  timedelta_minutes 10 = Return 600 /\
  exists incs1 incs2 per_ip1 per_ip2,
    brute_force scenario_A 10 5 = Return (incs1, per_ip1) /\
    brute_force scenario_A 10 6 = Return (incs2, per_ip2) /\
    (List.length incs2 <= List.length incs1)%nat.
Proof.
  split; [lia|]. split; [reflexivity|].
  apply (threshold_monotone scenario_A 10 5 6 600); [lia|reflexivity].
Defined.

(** C4: detection terminates.  For every list, window (zero and negative
    ones included) and threshold the inner loop leaves inside the list and
    the outer loop leaves with [i >= n]; [brute_force] never runs on, and it
    returns for every timeline and threshold whenever [max_minutes] makes a
    [timedelta], zero and negative ones included. *)
Theorem brute_force_terminates :
  (forall origin times window threshold sus,
      exists i' sus',
        scan origin times window threshold sus = Return (i', sus')
        /\ (List.length times <= i')%nat) /\
  (forall times window i,
      (i < List.length times)%nat ->
      exists j, expand times window i = Return j /\ (i <= j < List.length times)%nat) /\
  (forall per_ip max_minutes threshold,
      brute_force per_ip max_minutes threshold <> Timeout) /\
  (forall per_ip max_minutes threshold,
      -999999999 * 1440 <= max_minutes < 1000000000 * 1440 ->
      exists incs per_ip',
        brute_force per_ip max_minutes threshold = Return (incs, per_ip')).
Proof.
  split; [|split; [|split]].
  - intros origin times window threshold sus.
    destruct (scan_loop origin times window threshold (List.length times) 0 sus)
      as (i' & Hrun & Hi'); [lia|].
    exists i'. eexists. split; [exact Hrun|assumption].
  - intros times window i Hi. exists (cluster_end times window i).
    split; [now apply expand_cluster_end|now apply cluster_end_range].
  - intros per_ip max_minutes threshold. rewrite brute_force_unfold.
    unfold timedelta_minutes. destruct (_ && _); simpl; discriminate.
  - intros per_ip max_minutes threshold Hm.
    destruct (timedelta_in_range max_minutes Hm) as (window & Hw).
    eexists _, _. apply (brute_force_spec _ _ _ _ Hw).
Qed.

Lemma sorted_timeline_fixed per_ip :
  Forall (fun entry => StronglySorted Z.le (snd entry)) per_ip ->
  sorted_timeline per_ip = per_ip.
Proof.
  induction 1 as [|[origin times] per_ip Hs _ IH]; simpl; [reflexivity|].
  simpl in Hs. now rewrite (sort_fixed times Hs), IH.
Qed.

(** C7, as the code has it: [brute_force] sorts every list of the timeline
    in place.  The dict it leaves has the same origins in the same order,
    each with the sorted permutation of its list; a timeline whose lists
    are all sorted already is left as it was. *)
Theorem brute_force_sorts_in_place per_ip max_minutes threshold window :
  timedelta_minutes max_minutes = Return window ->
  exists incs per_ip',
    brute_force per_ip max_minutes threshold = Return (incs, per_ip') /\
    map fst per_ip' = map fst per_ip /\
    Forall2 (fun entry entry' =>
               fst entry' = fst entry /\
               Permutation (snd entry) (snd entry') /\
               StronglySorted Z.le (snd entry')) per_ip per_ip' /\
    (Forall (fun entry => StronglySorted Z.le (snd entry)) per_ip ->
     per_ip' = per_ip).
Proof.
  intros Hw. eexists _, _. split; [apply (brute_force_spec _ _ _ _ Hw)|]. repeat split.
  - unfold sorted_timeline. rewrite map_map. reflexivity.
  - induction per_ip as [|entry per_ip IH]; simpl; constructor; [|exact IH].
    simpl. repeat split; [apply sort_perm|apply sort_sorted].
  - apply sorted_timeline_fixed.
Qed.

Lemma brute_force_sorts_in_place_witness :
  timedelta_minutes 10 = Return 600 /\
  exists incs per_ip',
    brute_force unsorted 10 5 = Return (incs, per_ip') /\
    map fst per_ip' = map fst unsorted /\
    Forall2 (fun entry entry' =>
               fst entry' = fst entry /\
               Permutation (snd entry) (snd entry') /\
               StronglySorted Z.le (snd entry')) unsorted per_ip' /\
    (Forall (fun entry => StronglySorted Z.le (snd entry)) unsorted ->
     per_ip' = unsorted).
Proof.
  split; [reflexivity|].
  apply (brute_force_sorts_in_place unsorted 10 5 600). reflexivity.
Defined.

(** C7 as stated fails: the list [[2; 1]] comes back reordered. *)
Lemma brute_force_reorders_input :
  exists incs per_ip',
    brute_force unsorted 10 5 = Return (incs, per_ip') /\
    per_ip' <> unsorted.
Proof.
  eexists _, _. split; [reflexivity|]. discriminate.
Qed.

(** Scenarios A to D of the specification. *)
Example scenario_A_one_incident :
  brute_force scenario_A 10 5
  = Return ([mkIncident "203.0.113.45" 5 0 240], scenario_A).
Proof. reflexivity. Qed.

Example scenario_B_no_incident :
  brute_force scenario_A 10 6 = Return ([], scenario_A).
Proof. reflexivity. Qed.

Example scenario_C_late_cluster :
  clusters_of [0; 1200; 1260; 1320; 1380; 1440] 600 5 = [(1, 5)%nat]
  /\ brute_force [("203.0.113.45", [0; 1200; 1260; 1320; 1380; 1440])] 10 5
     = Return ([mkIncident "203.0.113.45" 5 1200 1440],
               [("203.0.113.45", [0; 1200; 1260; 1320; 1380; 1440])]).
Proof. split; reflexivity. Qed.

Example scenario_D_empty :
  brute_force [("203.0.113.45", [])] 10 5 = Return ([], [("203.0.113.45", [])])
  /\ brute_force [] 10 5 = Return ([], []).
Proof. split; reflexivity. Qed.

End DetectorSpec.

(* ================================================================== *)
(** ** The parser: what [parse_auth_line] guarantees *)

Module ParserSpec.
Import Py Parser Words.

#[local] Open Scope string_scope.

Lemma list_index_token_after parts :
  match list_index "from" parts with
  | Return k => token_after_from parts = nth_error parts (k + 1)
  | Raise e => e = ValueError /\ token_after_from parts = None
  | Timeout => False
  end.
Proof.
  induction parts as [|p rest IH]; simpl; [now split|].
  destruct (String.eqb p "from"); simpl.
  - now destruct rest.
  - destruct (list_index "from" rest) as [k|e|]; simpl; assumption.
Qed.

(** The [try] block of the origin extraction never lets an exception out. *)
Lemma ip_after_from_caught parts :
  try_except (ip_after_from parts) is_ValueError (Return None)
  = Return (option_map (strip ",;") (token_after_from parts)).
Proof.
  unfold ip_after_from.
  pose proof (list_index_token_after parts) as H.
  destruct (list_index "from" parts) as [k|e|]; simpl in *.
  - rewrite H. unfold getitem.
    destruct (k + 1 <? List.length parts)%nat eqn:Hk.
    + apply Nat.ltb_lt in Hk.
      destruct (nth_error parts (k + 1)) eqn:En; [reflexivity|].
      apply nth_error_None in En. lia.
    + apply Nat.ltb_ge in Hk. apply nth_error_None in Hk. now rewrite Hk.
  - destruct H as [-> ->]. reflexivity.
  - contradiction.
Qed.

Lemma strptime_2025_no_timeout ts_str : strptime_2025 ts_str <> Timeout.
Proof.
  unfold strptime_2025.
  repeat match goal with
         | |- context [match ?x with _ => _ end] => destruct x
         end; discriminate.
Qed.

(** The three outcomes of [parse_auth_line]. *)
Lemma parse_auth_line_cases line :
  ((List.length (split line) < 3)%nat
   /\ parse_auth_line line = Return (None, None, other))
  \/ ((3 <= List.length (split line))%nat
      /\ (exists e, strptime_2025 (join " " (firstn 3 (split line))) = Raise e)
      /\ parse_auth_line line = Return (None, None, other))
  \/ ((3 <= List.length (split line))%nat
      /\ exists ts,
          strptime_2025 (join " " (firstn 3 (split line))) = Return ts
          /\ parse_auth_line line
             = Return (Some ts,
                       (if contains " from " line
                        then option_map (strip ",;") (token_after_from (split line))
                        else None),
                       classify line)).
Proof.
  unfold parse_auth_line.
  destruct (List.length (split line) <? 3)%nat eqn:Hlen.
  - left. apply Nat.ltb_lt in Hlen. now split.
  - right. apply Nat.ltb_ge in Hlen.
    destruct (strptime_2025 (join " " (firstn 3 (split line)))) as [ts|e|] eqn:Hts.
    + right. split; [assumption|]. exists ts. split; [reflexivity|].
      destruct (contains " from " line).
      * rewrite ip_after_from_caught. reflexivity.
      * reflexivity.
    + left. split; [assumption|]. split; [now exists e|reflexivity].
    + now apply strptime_2025_no_timeout in Hts.
Qed.

Lemma parse_auth_line_returns line :
  exists ts origin event, parse_auth_line line = Return (ts, origin, event).
Proof.
  destruct (parse_auth_line_cases line)
    as [(_ & H)|[(_ & _ & H)|(_ & ts & _ & H)]]; rewrite H; eauto.
Qed.

Lemma strip_no_leading chars tok :
  lstrip chars tok = tok -> strip chars tok = rstrip chars tok.
Proof. unfold strip. now intros ->. Qed.

(** C6, as the code has it.  The origin is looked for only when the
    timestamp parses and the line contains [from] between two blanks; then
    it is the token after the first token [from], with its trailing commas
    and semicolons stripped (for a token that does not start with one), and
    it is absent when [from] is the last token.  In every other case the
    origin is absent; nothing is raised. *)
Theorem origin_extraction line :
  exists ts origin event,
    parse_auth_line line = Return (ts, origin, event) /\
    (ts = None -> origin = None) /\
    (contains " from " line = false -> origin = None) /\
    (token_after_from (split line) = None -> origin = None) /\
    (forall tok,
        ts <> None -> contains " from " line = true ->
        token_after_from (split line) = Some tok ->
        lstrip ",;" tok = tok ->
        origin = Some (rstrip ",;" tok)).
Proof.
  destruct (parse_auth_line_cases line)
    as [(_ & H)|[(_ & _ & H)|(_ & ts & _ & H)]]; rewrite H;
    eexists _, _, _; (split; [reflexivity|]).
  1,2: repeat split; try reflexivity; intros; congruence.
  repeat split.
  - discriminate.
  - now intros ->.
  - intros ->. now destruct (contains " from " line).
  - intros tok _ -> -> Hlead. simpl. now rewrite strip_no_leading.
Qed.

(** C6 as stated fails: the token [from] is there and a token follows it,
    yet the origin is absent, because the line has no [from] between two
    blanks. *)
Lemma origin_needs_blanks_around_from :
  token_after_from (split tabbed_line) = Some "203.0.113.45" /\
  exists ts event,
    parse_auth_line tabbed_line = Return (Some ts, None, event).
Proof.
  split; [reflexivity|]. eexists _, _. reflexivity.
Qed.

(** Both ends of the candidate are stripped, not only its tail. *)
Lemma origin_leading_punctuation_stripped :
  parse_auth_line "Mar 10 13:58:01 host1 sshd[1023]: Failed password for root from ,203.0.113.45; port 22"
  = Return (Some 5925481, Some "203.0.113.45", failed).
Proof. reflexivity. Qed.

(** C10: the parser is total.  Every line yields a triple and nothing is
    raised; with fewer than three tokens, or with three first tokens that
    are not a timestamp, the triple is [(None, None, other)]; whenever the
    timestamp is absent, so is the origin, and the kind is [other]. *)
Theorem parse_auth_line_total line :
  exists ts origin event,
    parse_auth_line line = Return (ts, origin, event) /\
    (ts = None -> origin = None /\ event = other) /\
    ((List.length (split line) < 3)%nat -> ts = None) /\
    (forall e, strptime_2025 (join " " (firstn 3 (split line))) = Raise e ->
               ts = None).
Proof.
  destruct (parse_auth_line_cases line)
    as [(_ & H)|[(_ & _ & H)|(Hlen & ts & Hts & H)]]; rewrite H;
    eexists _, _, _; (split; [reflexivity|]).
  1,2: repeat split; reflexivity.
  repeat split; try discriminate.
  - lia.
  - intros e He. congruence.
Qed.

(** The inputs C10 names: the empty line, a short line, a line without a
    timestamp, a line ending in [from]; and scenario E. *)
Example parse_empty : parse_auth_line "" = Return (None, None, other).
Proof. reflexivity. Qed.

Example parse_short : parse_auth_line "Mar 10" = Return (None, None, other).
Proof. reflexivity. Qed.

Example parse_bad_timestamp :
  parse_auth_line "Feb 30 13:58:01 host1 sshd: Failed password for root from 203.0.113.45"
  = Return (None, None, other).
Proof. reflexivity. Qed.

Example parse_from_last :
  parse_auth_line "Mar 10 13:58:01 host1 sshd: Connection from "
  = Return (Some 5925481, None, other).
Proof. reflexivity. Qed.

Example scenario_E :
  parse_auth_line "Mar 10 13:58:01 host1 sshd[1023]: Failed password for invalid user admin from 203.0.113.45 port 52344 ssh2"
  = Return (Some 5925481, Some "203.0.113.45", failed).
Proof. reflexivity. Qed.

End ParserSpec.

(* ================================================================== *)
(** ** Aggregation and ranking: what [main] guarantees *)

Module ReportSpec.
Import Py Detector Parser Report Trace Words PyFacts Loops.

#[local] Open Scope string_scope.

(** *** Dicts *)

Lemma dict_get_set {V} (d : dict V) k v k' default :
  dict_get (dict_set d k v) k' default
  = if String.eqb k k' then v else dict_get d k' default.
Proof.
  induction d as [|[k0 v0] d IH]; simpl.
  - reflexivity.
  - destruct (String.eqb k0 k) eqn:E0; simpl.
    + apply String.eqb_eq in E0. subst k0.
      destruct (String.eqb k k'); reflexivity.
    + destruct (String.eqb k0 k') eqn:E1; [|exact IH].
      apply String.eqb_eq in E1. subst k0. now rewrite String.eqb_sym, E0.
Qed.

Lemma dict_set_keys {V} (d : dict V) k v :
  map fst (dict_set d k v)
  = if has_key d k then map fst d else (map fst d ++ [k])%list.
Proof.
  induction d as [|[k0 v0] d IH]; simpl; [reflexivity|].
  destruct (String.eqb k0 k) eqn:E0; simpl; [reflexivity|].
  rewrite IH. now destruct (has_key d k).
Qed.

Lemma has_key_in {V} (d : dict V) k :
  has_key d k = true <-> In k (map fst d).
Proof.
  unfold has_key. rewrite existsb_exists, in_map_iff. split.
  - intros (e & He & Heq). apply String.eqb_eq in Heq. now exists e.
  - intros (e & Heq & He). exists e. split; [assumption|].
    now apply String.eqb_eq.
Qed.

Lemma dict_set_nodup {V} (d : dict V) k v :
  NoDup (map fst d) -> NoDup (map fst (dict_set d k v)).
Proof.
  intros Hd. rewrite dict_set_keys.
  destruct (has_key d k) eqn:Hk; [assumption|].
  apply NoDup_app; [assumption|repeat constructor; intros []|].
  intros a Ha [<-|[]].
  apply has_key_in in Ha. congruence.
Qed.

(** A dict with distinct keys is determined by its keys and lookups. *)
Lemma dict_items {V} (d : dict V) default :
  NoDup (map fst d) ->
  d = map (fun k => (k, dict_get d k default)) (map fst d).
Proof.
  induction d as [|[k v] d IH]; simpl; intros Hd; [reflexivity|].
  inversion Hd as [|? ? Hk Hd']; subst.
  rewrite String.eqb_refl. f_equal.
  rewrite (IH Hd') at 1. apply map_ext_in.
  intros k' Hk'. destruct (String.eqb k k') eqn:E; [|reflexivity].
  apply String.eqb_eq in E. subst k'. contradiction.
Qed.

(** *** [summarize] *)

Lemma summarize_into_get summary sus origin :
  dict_get (summarize_into summary sus) origin 0
  = dict_get summary origin 0 + total_count origin sus.
Proof.
  revert summary. induction sus as [|inc rest IH]; intros summary; simpl.
  - lia.
  - rewrite IH, dict_get_set.
    destruct (String.eqb (ip inc) origin) eqn:E.
    + apply String.eqb_eq in E. subst origin. lia.
    + lia.
Qed.

Lemma summarize_into_nodup summary sus :
  NoDup (map fst summary) -> NoDup (map fst (summarize_into summary sus)).
Proof.
  revert summary. induction sus as [|inc rest IH]; intros summary Hd; simpl.
  - assumption.
  - apply IH. now apply dict_set_nodup.
Qed.

Lemma filter_filter {A} (p q : A -> bool) l :
  filter p (filter q l) = filter (fun x => q x && p x) l.
Proof.
  induction l as [|x l IH]; simpl; [reflexivity|].
  destruct (q x); simpl; [destruct (p x)|]; now rewrite IH.
Qed.

Lemma summarize_into_keys summary sus :
  map fst (summarize_into summary sus)
  = (map fst summary
     ++ filter (fresh (map fst summary)) (first_seen (map ip sus)))%list.
Proof.
  revert summary. induction sus as [|inc rest IH]; intros summary; simpl.
  - now rewrite app_nil_r.
  - rewrite IH, dict_set_keys.
    assert (Hk : has_key summary (ip inc)
                 = existsb (fun b => String.eqb b (ip inc)) (map fst summary)).
    { unfold has_key. clear. induction summary as [|e d IHd]; simpl; congruence. }
    unfold fresh at 2. rewrite <- Hk. rewrite filter_filter.
    destruct (has_key summary (ip inc)) eqn:E; simpl.
    + f_equal. apply filter_ext_in. intros b _.
      unfold fresh. destruct (String.eqb b (ip inc)) eqn:Eb; simpl; [|reflexivity].
      apply String.eqb_eq in Eb. subst b. rewrite <- Hk. reflexivity.
    + rewrite <- app_assoc. simpl. do 2 f_equal.
      apply filter_ext. intros b. unfold fresh.
      rewrite existsb_app. simpl. rewrite orb_false_r, negb_orb.
      rewrite (String.eqb_sym (ip inc) b). apply andb_comm.
Qed.

Lemma filter_true {A} (l : list A) : filter (fun _ => true) l = l.
Proof. induction l; simpl; congruence. Qed.

Lemma summarize_keys sus :
  map fst (summarize sus) = first_seen (map ip sus).
Proof.
  unfold summarize. rewrite summarize_into_keys. simpl. apply filter_true.
Qed.

(** The summary lists the origins in first-seen order, each with the sum of
    the counts of its incidents. *)
Lemma summarize_items sus :
  summarize sus
  = map (fun origin => (origin, total_count origin sus)) (first_seen (map ip sus)).
Proof.
  rewrite <- summarize_keys.
  rewrite (dict_items (summarize sus) 0) at 1
    by (apply summarize_into_nodup; constructor).
  apply map_ext. intros origin. unfold summarize.
  now rewrite summarize_into_get.
Qed.

(** *** [sorted] *)

Lemma insert_desc_perm x l : Permutation (x :: l) (insert_desc x l).
Proof.
  induction l as [|y l IH]; simpl; [reflexivity|].
  destruct (snd x <? snd y)%Z; [|reflexivity].
  rewrite perm_swap. now apply perm_skip.
Qed.

Lemma sorted_desc_perm l : Permutation l (sorted_desc l).
Proof.
  induction l as [|x l IH]; simpl; [constructor|].
  rewrite <- insert_desc_perm. now apply perm_skip.
Qed.

Lemma insert_desc_sorted x l :
  StronglySorted ranks_before l -> StronglySorted ranks_before (insert_desc x l).
Proof.
  induction 1 as [|y l Hs IH Hall]; simpl.
  - repeat constructor.
  - destruct (snd x <? snd y)%Z eqn:E.
    + apply Z.ltb_lt in E. constructor; [assumption|].
      eapply Permutation_Forall; [apply insert_desc_perm|].
      constructor; [unfold ranks_before; lia|assumption].
    + apply Z.ltb_ge in E. constructor; [now constructor|].
      constructor; [assumption|].
      eapply Forall_impl; [|exact Hall]. unfold ranks_before. intros; lia.
Qed.

Lemma sorted_desc_sorted l : StronglySorted ranks_before (sorted_desc l).
Proof.
  induction l; simpl; [constructor|now apply insert_desc_sorted].
Qed.

(** Stability: the items with one and the same total keep their order. *)
Lemma insert_desc_stable v x l :
  filter (has_total v) (insert_desc x l) = filter (has_total v) (x :: l).
Proof.
  induction l as [|y l IH]; [reflexivity|].
  cbn [insert_desc]. destruct (snd x <? snd y)%Z eqn:E; [|reflexivity].
  apply Z.ltb_lt in E. cbn [filter] in *. rewrite IH.
  unfold has_total.
  destruct (snd x =? v)%Z eqn:Ex, (snd y =? v)%Z eqn:Ey; try reflexivity.
  apply Z.eqb_eq in Ex, Ey. lia.
Qed.

Lemma sorted_desc_stable v l :
  filter (has_total v) (sorted_desc l) = filter (has_total v) l.
Proof.
  induction l as [|x l IH]; [reflexivity|].
  cbn [sorted_desc]. rewrite insert_desc_stable. cbn [filter]. now rewrite IH.
Qed.

Lemma filter_map_swap {A B} (f : A -> B) (p : B -> bool) l :
  filter p (map f l) = map f (filter (fun a => p (f a)) l).
Proof.
  induction l as [|a l IH]; simpl; [reflexivity|].
  destruct (p (f a)); simpl; now rewrite IH.
Qed.

(** C9: [sorted(summary.items(), key=..., reverse=True)] of the summary of a
    fixed incident list is a function of that list: a permutation of the
    per-origin totals, in descending order of total, in which the origins
    with one and the same total stand in the order of their first incident.
    Whenever an incident exists (or there is no timeline) this is the
    ranking [main] reports. *)
Theorem ranking_stable sus_incidents :
  Permutation
    (map (fun origin => (origin, total_count origin sus_incidents))
         (first_seen (map ip sus_incidents)))
    (sorted_desc (summarize sus_incidents)) /\
  StronglySorted ranks_before (sorted_desc (summarize sus_incidents)) /\
  (forall v,
      map fst (filter (has_total v) (sorted_desc (summarize sus_incidents)))
      = filter (fun origin => (total_count origin sus_incidents =? v)%Z)
               (first_seen (map ip sus_incidents))) /\
  (forall per_ip,
      sus_incidents <> [] \/ per_ip = [] ->
      top_attackers sus_incidents per_ip = sorted_desc (summarize sus_incidents)).
Proof.
  repeat split.
  - rewrite <- summarize_items. apply sorted_desc_perm.
  - apply sorted_desc_sorted.
  - intros v. rewrite sorted_desc_stable, summarize_items, filter_map_swap.
    rewrite map_map. simpl. apply map_id.
  - intros per_ip H. unfold top_attackers, with_fallback.
    destruct H as [H| ->].
    + destruct sus_incidents as [|inc rest]; [contradiction|].
      pose proof (summarize_keys (inc :: rest)) as Hk. simpl in Hk.
      destruct (summarize (inc :: rest)); [discriminate|reflexivity].
    + simpl. now rewrite andb_false_r.
Qed.

(** *** The fallback *)

Lemma summarize_empty sus : is_empty (summarize sus) = is_empty sus.
Proof.
  destruct sus as [|inc rest]; [reflexivity|].
  pose proof (summarize_keys (inc :: rest)) as Hk. simpl in Hk.
  destruct (summarize (inc :: rest)); [discriminate|reflexivity].
Qed.

(** C8, as the code has it: the ranking is computed from the incident
    totals when an incident exists and from the raw per-origin attempt
    counts when none does; it is a plain list of (origin, total) pairs in
    both cases and carries no mark of which one was used. *)
Theorem fallback_unlabelled sus_incidents per_ip :
  top_attackers sus_incidents per_ip
  = if is_empty sus_incidents
    then sorted_desc (raw_counts per_ip)
    else sorted_desc (summarize sus_incidents).
Proof.
  unfold top_attackers, with_fallback. rewrite summarize_empty.
  destruct sus_incidents as [|inc rest]; [|reflexivity].
  destruct per_ip; reflexivity.
Qed.

(** C8 as stated fails: a timeline with an incident and one without yield
    the same ranking, so the ranking does not tell the two modes apart. *)
Lemma fallback_indistinguishable :
  exists sus per_ip1 per_ip2,
    brute_force burst 10 5 = Return (sus, per_ip1) /\
    sus <> [] /\
    brute_force sparse 10 5 = Return ([], per_ip2) /\
    top_attackers sus per_ip1 = top_attackers [] per_ip2.
Proof.
  eexists _, _, _. split; [reflexivity|].
  split; [discriminate|]. split; reflexivity.
Qed.

(** *** No validation of the configuration *)

Lemma ingest_line_returns per_ip line :
  exists per_ip', ingest_line per_ip line = Return per_ip'.
Proof.
  unfold ingest_line.
  destruct (ParserSpec.parse_auth_line_returns line) as (ts & origin & event & H).
  rewrite H. simpl.
  destruct ts, origin; try (eexists; reflexivity).
  destruct (negb (String.eqb s EmptyString) && event_type_eqb event failed);
    eexists; reflexivity.
Qed.

Lemma ingest_returns lines :
  forall per_ip, exists per_ip', ingest per_ip lines = Return per_ip'.
Proof.
  induction lines as [|line lines IH]; intros per_ip; simpl.
  - eexists; reflexivity.
  - destruct (ingest_line_returns per_ip line) as (per_ip1 & H1).
    rewrite H1. simpl. apply IH.
Qed.

Lemma detect_nonpositive_threshold window threshold origin times :
  threshold <= 0 -> times <> [] ->
  exists inc, In inc (detect window threshold (origin, times)) /\ ip inc = origin.
Proof.
  intros Ht Hne. unfold detect, clusters_of. simpl.
  assert (Hlen : (0 < List.length (sort times))%nat).
  { rewrite sort_length. destruct times; [contradiction|simpl; lia]. }
  destruct (List.length (sort times)) as [|fuel] eqn:Hn; [lia|].
  rewrite ClusterFacts.clusters_step, Hn.
  replace (0 <? S fuel)%nat with true by reflexivity.
  replace (threshold <=? Z.of_nat (cluster_end (sort times) window 0) - Z.of_nat 0 + 1)%Z
    with true by (symmetry; apply Z.leb_le; lia).
  eexists. split; [left; reflexivity|reflexivity].
Qed.

(** C5, as the code has it: nothing validates the configuration.
    [brute_force] runs and returns for every threshold and every window
    that is a [timedelta], zero and negative ones included; with a
    threshold of zero or less every origin that has a timestamp gets an
    incident.  [main] never raises and always calls it with [max_minutes=10]
    and [threshold=5]. *)
Theorem configuration_unchecked :
  (forall per_ip max_minutes threshold window,
      timedelta_minutes max_minutes = Return window ->
      exists sus,
        brute_force per_ip max_minutes threshold
        = Return (sus, sorted_timeline per_ip) /\
        (threshold <= 0 ->
         forall origin times,
           In (origin, times) per_ip -> times <> [] ->
           exists inc, In inc sus /\ ip inc = origin)) /\
  (forall lines,
      exists per_ip sus,
        ingest [] lines = Return per_ip /\
        brute_force per_ip 10 5 = Return (sus, sorted_timeline per_ip) /\
        main lines = Return (sus, top_attackers sus (sorted_timeline per_ip))).
Proof.
  split.
  - intros per_ip max_minutes threshold window Hw. eexists.
    split; [apply (brute_force_spec _ _ _ _ Hw)|].
    intros Ht origin times Hin Hne.
    destruct (detect_nonpositive_threshold window
                threshold origin times Ht Hne) as (inc & Hinc & Hip).
    exists inc. split; [|assumption].
    apply in_flat_map. exists (origin, times). now split.
  - intros lines. destruct (ingest_returns lines []) as (per_ip & Hing).
    exists per_ip. eexists. split; [assumption|].
    split; [now apply (brute_force_spec _ 10 5 600)|].
    unfold main. rewrite Hing. simpl.
    rewrite (brute_force_spec _ 10 5 600) by reflexivity. reflexivity.
Qed.

(** C5 as stated fails: with a window of zero and a threshold of zero
    detection runs and reports an incident. *)
Lemma nonpositive_configuration_accepted :
  brute_force [("203.0.113.45", [0])] 0 0
  = Return ([mkIncident "203.0.113.45" 1 0 0], [("203.0.113.45", [0])]).
Proof. reflexivity. Qed.

End ReportSpec.

(* ================================================================== *)
(** ** Further properties of the detector *)

Module DetectorMore.
Import Py Detector Trace Words Measures PyFacts Loops ClusterFacts.

Section PerOrigin.
Variable times : list Z.
Variable window : Z.

#[local] Abbreviation n := (List.length times).
#[local] Abbreviation E := (cluster_end times window).

Lemma clusters_covered threshold :
  forall fuel i, (i <= n)%nat ->
    (covered (clusters times window threshold fuel i) <= n - i)%nat.
Proof.
  induction fuel as [|fuel IH]; intros i Hi; [simpl; lia|].
  rewrite clusters_step. destruct (i <? n)%nat eqn:Hlt; [|simpl; lia].
  apply Nat.ltb_lt in Hlt.
  pose proof (cluster_end_range times window i Hlt) as Hr.
  destruct (threshold <=? _).
  - cbn [covered fold_right fst snd].
    specialize (IH (E i + 1)%nat ltac:(lia)). unfold covered in IH. lia.
  - specialize (IH (i + 1)%nat ltac:(lia)). lia.
Qed.

Lemma clusters_covered_all threshold :
  threshold <= 1 ->
  forall fuel i, (n <= fuel + i)%nat -> (i <= n)%nat ->
    covered (clusters times window threshold fuel i) = (n - i)%nat.
Proof.
  intros Ht. induction fuel as [|fuel IH]; intros i Hf Hi; [simpl; lia|].
  rewrite clusters_step. destruct (i <? n)%nat eqn:Hlt; [|apply Nat.ltb_ge in Hlt; simpl; lia].
  apply Nat.ltb_lt in Hlt.
  pose proof (cluster_end_range times window i Hlt) as Hr.
  replace (threshold <=? Z.of_nat (E i) - Z.of_nat i + 1) with true
    by (symmetry; apply Z.leb_le; lia).
  cbn [covered fold_right fst snd].
  specialize (IH (E i + 1)%nat ltac:(lia) ltac:(lia)). unfold covered in IH. lia.
Qed.

Lemma clusters_short threshold :
  Z.of_nat n < threshold ->
  forall fuel i, clusters times window threshold fuel i = [].
Proof.
  intros Ht. induction fuel as [|fuel IH]; intros i; [reflexivity|].
  rewrite clusters_step. destruct (i <? n)%nat eqn:Hlt; [|reflexivity].
  apply Nat.ltb_lt in Hlt.
  pose proof (cluster_end_range times window i Hlt) as Hr.
  replace (threshold <=? Z.of_nat (E i) - Z.of_nat i + 1) with false
    by (symmetry; apply Z.leb_gt; lia).
  apply IH.
Qed.

(** With a negative window no timestamp joins the anchor. *)
Lemma cluster_end_negative i :
  StronglySorted Z.le times -> window < 0 -> (i < n)%nat -> E i = i.
Proof.
  intros Hs Hw Hi.
  pose proof (cluster_end_range times window i Hi) as Hr.
  destruct (Nat.eq_dec (E i) i) as [|Hne]; [assumption|exfalso].
  assert (H1 : at_index times (i + 1) - at_index times i <= window)
    by (apply cluster_end_within; [assumption|lia]).
  assert (H2 : at_index times i <= at_index times (i + 1))
    by (apply sorted_nth; [assumption|lia]).
  lia.
Qed.

Lemma clusters_negative threshold :
  StronglySorted Z.le times -> window < 0 -> 2 <= threshold ->
  forall fuel i, clusters times window threshold fuel i = [].
Proof.
  intros Hs Hw Ht. induction fuel as [|fuel IH]; intros i; [reflexivity|].
  rewrite clusters_step. destruct (i <? n)%nat eqn:Hlt; [|reflexivity].
  apply Nat.ltb_lt in Hlt. rewrite (cluster_end_negative i Hs Hw Hlt).
  replace (threshold <=? Z.of_nat i - Z.of_nat i + 1) with false
    by (symmetry; apply Z.leb_gt; lia).
  apply IH.
Qed.

(** With a window as wide as the list the first anchor reaches its end. *)
Lemma cluster_end_wide :
  StronglySorted Z.le times -> (0 < n)%nat ->
  at_index times (n - 1) - at_index times 0 <= window ->
  E 0%nat = (n - 1)%nat.
Proof.
  intros Hs Hn Hw.
  pose proof (cluster_end_range times window 0%nat Hn) as Hr.
  destruct (Nat.eq_dec (E 0%nat) (n - 1)) as [|Hne]; [assumption|exfalso].
  assert (H1 : window < at_index times (E 0%nat + 1) - at_index times 0)
    by (apply cluster_end_maximal; lia).
  assert (H2 : at_index times (E 0%nat + 1) <= at_index times (n - 1))
    by (apply sorted_nth; [assumption|lia]).
  lia.
Qed.

Lemma clusters_past_end threshold fuel i :
  (n <= i)%nat -> clusters times window threshold fuel i = [].
Proof.
  intros Hi. destruct fuel as [|fuel]; [reflexivity|].
  rewrite clusters_step.
  replace (i <? n)%nat with false by (symmetry; apply Nat.ltb_ge; lia).
  reflexivity.
Qed.

Lemma clusters_wide threshold :
  StronglySorted Z.le times -> (0 < n)%nat ->
  at_index times (n - 1) - at_index times 0 <= window ->
  threshold <= Z.of_nat n ->
  clusters times window threshold n 0 = [(0, n - 1)%nat].
Proof.
  intros Hs Hn Hw Ht.
  destruct n as [|m] eqn:Hm; [lia|].
  rewrite clusters_step, Hm.
  replace (0 <? S m)%nat with true by reflexivity.
  pose proof (cluster_end_wide Hs ltac:(lia)) as HE.
  rewrite Hm in HE. rewrite HE by assumption.
  replace (threshold <=? Z.of_nat (S m - 1) - Z.of_nat 0 + 1) with true
    by (symmetry; apply Z.leb_le; lia).
  rewrite clusters_past_end by lia. reflexivity.
Qed.

End PerOrigin.

Lemma sum_counts_app l l' :
  sum_counts (l ++ l') = sum_counts l + sum_counts l'.
Proof. induction l as [|x l IH]; simpl; [reflexivity|]. rewrite IH. lia. Qed.

Lemma sum_counts_clusters origin times cl :
  Forall (fun c => (fst c <= snd c)%nat) cl ->
  sum_counts (map (incident_of origin times) cl) = Z.of_nat (covered cl).
Proof.
  induction 1 as [|c cl Hc _ IH]; [reflexivity|].
  cbn [map sum_counts fold_right covered count incident_of].
  unfold sum_counts in IH. rewrite IH. unfold covered. lia.
Qed.

Lemma clusters_of_ordered times window threshold :
  Forall (fun c => (fst c <= snd c)%nat) (clusters_of times window threshold).
Proof.
  eapply Forall_impl; [|apply clusters_of_emitted]. intros c (_ & Hr & _). lia.
Qed.

Lemma detect_sum_counts window threshold entry :
  sum_counts (detect window threshold entry)
  = Z.of_nat (covered (clusters_of (snd entry) window threshold)).
Proof. unfold detect. apply sum_counts_clusters, clusters_of_ordered. Qed.

Lemma sort_twice l : sort (sort l) = sort l.
Proof. apply sort_fixed, sort_sorted. Qed.

Lemma insert_insert x y l : insert x (insert y l) = insert y (insert x l).
Proof.
  induction l as [|z l IH]; simpl.
  - destruct (x <=? y) eqn:E1, (y <=? x) eqn:E2; try reflexivity.
    + apply Z.leb_le in E1, E2. now replace y with x by lia.
    + apply Z.leb_gt in E1, E2. lia.
  - destruct (y <=? z) eqn:Eyz, (x <=? z) eqn:Exz; simpl;
      destruct (x <=? y) eqn:Exy, (y <=? x) eqn:Eyx; simpl;
      rewrite ?Eyz, ?Exz; try reflexivity;
      try (rewrite IH; reflexivity);
      try (apply Z.leb_le in Exy, Eyx; now replace y with x by lia);
      rewrite ?Z.leb_le, ?Z.leb_gt in *; try lia.
Qed.

Lemma sort_permutation l l' : Permutation l l' -> sort l = sort l'.
Proof.
  induction 1 as [|x l l' _ IH|x y l|l l' l'' _ IH1 _ IH2]; simpl.
  - reflexivity.
  - now rewrite IH.
  - apply insert_insert.
  - now rewrite IH1.
Qed.

Lemma detect_sorted_entry window threshold origin times :
  detect window threshold (origin, sort times) = detect window threshold (origin, times).
Proof. unfold detect, clusters_of. simpl. now rewrite !sort_twice. Qed.

Lemma sorted_timeline_twice per_ip :
  sorted_timeline (sorted_timeline per_ip) = sorted_timeline per_ip.
Proof.
  unfold sorted_timeline. rewrite map_map. apply map_ext.
  intros [origin times]. simpl. now rewrite sort_twice.
Qed.

Lemma flat_map_detect_sorted window threshold per_ip :
  flat_map (detect window threshold) (sorted_timeline per_ip)
  = flat_map (detect window threshold) per_ip.
Proof.
  induction per_ip as [|[origin times] per_ip IH]; simpl; [reflexivity|].
  now rewrite IH, detect_sorted_entry.
Qed.

Lemma flat_map_nil {A B} (f : A -> list B) l :
  Forall (fun a => f a = []) l -> flat_map f l = [].
Proof. induction 1 as [|a l Ha _ IH]; simpl; [reflexivity|]. now rewrite Ha, IH. Qed.

Lemma flat_map_single {A B} (f : A -> list B) (g : A -> B) l :
  Forall (fun a => f a = [g a]) l -> flat_map f l = map g l.
Proof. induction 1 as [|a l Ha _ IH]; simpl; [reflexivity|]. now rewrite Ha, IH. Qed.

Lemma at_index_sort_in times k :
  (k < List.length times)%nat -> In (at_index (sort times) k) times.
Proof.
  intros Hk. apply (Permutation_in _ (Permutation_sym (sort_perm times))).
  apply nth_In. now rewrite sort_length.
Qed.

(** X1: every incident [brute_force] returns spans at most the window:
    [last - first] lies between 0 and the window (0 for a negative
    window, where an incident is a single timestamp). *)
Theorem incident_span per_ip max_minutes threshold window :
  timedelta_minutes max_minutes = Return window ->
  exists incs per_ip',
    brute_force per_ip max_minutes threshold = Return (incs, per_ip') /\
    Forall (fun inc => 0 <= last inc - first inc <= Z.max 0 window) incs.
Proof.
  intros Hw. eexists _, _. split; [apply (brute_force_spec _ _ _ _ Hw)|].
  apply Forall_forall. intros inc Hin.
  apply in_flat_map in Hin as ([origin times] & _ & Hin).
  apply DetectorSpec.in_detect in Hin as ([i j] & Hc & ->). simpl in *.
  pose proof (clusters_of_emitted times window threshold) as He.
  rewrite Forall_forall in He. destruct (He _ Hc) as (_ & Hr & HE & _). simpl in *.
  assert (Hle : at_index (sort times) i <= at_index (sort times) j)
    by (apply sorted_nth; [apply sort_sorted|lia]).
  split; [lia|].
  destruct (Nat.eq_dec i j) as [->|Hne]; [lia|].
  assert (at_index (sort times) j - at_index (sort times) i <= window)
    by (apply cluster_end_within; lia).
  lia.
Qed.

Lemma incident_span_witness :
  timedelta_minutes 10 = Return 600 /\
  exists incs per_ip',
    brute_force two_bursts 10 5 = Return (incs, per_ip') /\
    Forall (fun inc => 0 <= last inc - first inc <= Z.max 0 600) incs.
Proof.
  split; [reflexivity|]. apply (incident_span two_bursts 10 5 600). reflexivity.
Defined.

(** X2: a cluster is a maximal run: all its timestamps are within the
    window of its first one, and the timestamp that follows it in the
    sorted list, if there is one, is not. *)
Theorem cluster_maximal per_ip max_minutes threshold window :
  timedelta_minutes max_minutes = Return window ->
  exists per_ip',
    brute_force per_ip max_minutes threshold
    = Return (flat_map (detect window threshold) per_ip, per_ip') /\
    forall times i j,
      In (i, j) (clusters_of times window threshold) ->
      (forall k, (i < k <= j)%nat ->
                 at_index (sort times) k - at_index (sort times) i <= window) /\
      ((j + 1 < List.length times)%nat ->
       window < at_index (sort times) (j + 1) - at_index (sort times) i).
Proof.
  intros Hw. eexists. split; [apply (brute_force_spec _ _ _ _ Hw)|].
  intros times i j Hc.
  pose proof (clusters_of_emitted times window threshold) as He.
  rewrite Forall_forall in He. destruct (He _ Hc) as (_ & Hr & HE & _). simpl in *.
  subst j. split.
  - intros k Hk. apply cluster_end_within; lia.
  - intros Hlt. apply cluster_end_maximal; [lia|]. now rewrite sort_length.
Qed.

Lemma cluster_maximal_witness :
  timedelta_minutes 10 = Return 600 /\
  exists per_ip',
    brute_force two_bursts 10 5
    = Return (flat_map (detect 600 5) two_bursts, per_ip') /\
    forall times i j,
      In (i, j) (clusters_of times 600 5) ->
      (forall k, (i < k <= j)%nat ->
                 at_index (sort times) k - at_index (sort times) i <= 600) /\
      ((j + 1 < List.length times)%nat ->
       600 < at_index (sort times) (j + 1) - at_index (sort times) i).
Proof.
  split; [reflexivity|]. apply (cluster_maximal two_bursts 10 5 600). reflexivity.
Defined.

Lemma flat_map_sum_counts_le window threshold per_ip :
  sum_counts (flat_map (detect window threshold) per_ip) <= total_stamps per_ip.
Proof.
  induction per_ip as [|[origin times] per_ip IH]; simpl; [lia|].
  rewrite sum_counts_app, detect_sum_counts. simpl.
  pose proof (clusters_covered (sort times) window threshold
                (List.length (sort times)) 0 ltac:(lia)) as Hc.
  fold (clusters_of times window threshold) in Hc.
  rewrite sort_length in Hc. lia.
Qed.

Lemma sum_counts_at_least threshold incs :
  Forall (fun inc => threshold <= count inc) incs ->
  threshold * Z.of_nat (List.length incs) <= sum_counts incs.
Proof.
  induction 1 as [|inc incs Hc _ IH]; [simpl; lia|].
  change (sum_counts (inc :: incs)) with (count inc + sum_counts incs).
  change (List.length (inc :: incs)) with (S (List.length incs)).
  rewrite Nat2Z.inj_succ. nia.
Qed.

(** X3: no attempt is counted twice and every incident is a full one: the
    counts of the incidents add up to at most the number of timestamps in
    the timeline, and to at least [threshold] per incident. *)
Theorem counts_bounded per_ip max_minutes threshold window :
  timedelta_minutes max_minutes = Return window ->
  exists incs per_ip',
    brute_force per_ip max_minutes threshold = Return (incs, per_ip') /\
    threshold * Z.of_nat (List.length incs) <= sum_counts incs /\
    sum_counts incs <= total_stamps per_ip.
Proof.
  intros Hw. eexists _, _. split; [apply (brute_force_spec _ _ _ _ Hw)|].
  split; [|apply flat_map_sum_counts_le].
  apply sum_counts_at_least, Forall_forall. intros inc Hin.
  apply in_flat_map in Hin as ([origin times] & _ & Hin).
  apply DetectorSpec.in_detect in Hin as ([i j] & Hc & ->). simpl in *.
  pose proof (clusters_of_emitted times window threshold) as He.
  rewrite Forall_forall in He. destruct (He _ Hc) as (_ & _ & _ & Ht).
  exact Ht.
Qed.

Lemma counts_bounded_witness :
  timedelta_minutes 10 = Return 600 /\
  exists incs per_ip',
    brute_force two_bursts 10 5 = Return (incs, per_ip') /\
    5 * Z.of_nat (List.length incs) <= sum_counts incs /\
    sum_counts incs <= total_stamps two_bursts.
Proof.
  split; [reflexivity|]. apply (counts_bounded two_bursts 10 5 600). reflexivity.
Defined.

(** X4: with a threshold of 1 or less every attempt is reported exactly
    once: the counts of the incidents add up to the number of timestamps. *)
Theorem low_threshold_reports_all per_ip max_minutes threshold window :
  threshold <= 1 ->
  timedelta_minutes max_minutes = Return window ->
  exists incs per_ip',
    brute_force per_ip max_minutes threshold = Return (incs, per_ip') /\
    sum_counts incs = total_stamps per_ip.
Proof.
  intros Ht Hw. eexists _, _. split; [apply (brute_force_spec _ _ _ _ Hw)|].
  induction per_ip as [|[origin times] per_ip IH]; simpl; [reflexivity|].
  rewrite sum_counts_app, detect_sum_counts. simpl.
  unfold clusters_of.
  rewrite (clusters_covered_all (sort times) window threshold Ht) by lia.
  rewrite sort_length. lia.
Qed.

Lemma low_threshold_reports_all_witness :
  1 <= 1 /\
  timedelta_minutes 10 = Return 600 /\
  exists incs per_ip',
    brute_force two_bursts 10 1 = Return (incs, per_ip') /\
    sum_counts incs = total_stamps two_bursts.
Proof.
  split; [lia|]. split; [reflexivity|].
  apply (low_threshold_reports_all two_bursts 10 1 600); [lia|reflexivity].
Defined.

(** X5: running [brute_force] again on the timeline it has left behind
    returns the same incidents and leaves the timeline as it is. *)
Theorem brute_force_again per_ip max_minutes threshold window :
  timedelta_minutes max_minutes = Return window ->
  exists incs per_ip',
    brute_force per_ip max_minutes threshold = Return (incs, per_ip') /\
    brute_force per_ip' max_minutes threshold = Return (incs, per_ip').
Proof.
  intros Hw. eexists _, _. split; [apply (brute_force_spec _ _ _ _ Hw)|].
  rewrite (brute_force_spec _ _ _ _ Hw).
  now rewrite flat_map_detect_sorted, sorted_timeline_twice.
Qed.

Lemma brute_force_again_witness :
  timedelta_minutes 10 = Return 600 /\
  exists incs per_ip',
    brute_force unsorted 10 1 = Return (incs, per_ip') /\
    brute_force per_ip' 10 1 = Return (incs, per_ip').
Proof.
  split; [reflexivity|]. apply (brute_force_again unsorted 10 1 600). reflexivity.
Defined.

Lemma same_attempts_sorted per_ip per_ip2 :
  same_attempts per_ip per_ip2 -> sorted_timeline per_ip = sorted_timeline per_ip2.
Proof.
  induction 1 as [|[o ts] [o2 ts2] l l2 (Ho & Hp) _ IH]; simpl; [reflexivity|].
  simpl in Ho, Hp. subst o2. now rewrite (sort_permutation ts ts2 Hp), IH.
Qed.

(** X6: the order in which the attempts of an origin were collected does
    not matter: two timelines with the same origins, each with the same
    timestamps in any order, give the same incidents and are left equal. *)
Theorem order_irrelevant per_ip per_ip2 max_minutes threshold window :
  same_attempts per_ip per_ip2 ->
  timedelta_minutes max_minutes = Return window ->
  exists incs per_ip',
    brute_force per_ip max_minutes threshold = Return (incs, per_ip') /\
    brute_force per_ip2 max_minutes threshold = Return (incs, per_ip').
Proof.
  intros Hsame Hw. eexists _, _. split; [apply (brute_force_spec _ _ _ _ Hw)|].
  rewrite (brute_force_spec _ _ _ _ Hw).
  rewrite <- (same_attempts_sorted _ _ Hsame).
  rewrite <- (flat_map_detect_sorted window threshold per_ip2).
  rewrite <- (same_attempts_sorted _ _ Hsame).
  now rewrite flat_map_detect_sorted.
Qed.

Lemma order_irrelevant_witness :
  same_attempts [("10.0.0.1"%string, [2; 1; 3])] [("10.0.0.1"%string, [3; 1; 2])] /\
  timedelta_minutes 10 = Return 600 /\
  exists incs per_ip',
    brute_force [("10.0.0.1"%string, [2; 1; 3])] 10 2 = Return (incs, per_ip') /\
    brute_force [("10.0.0.1"%string, [3; 1; 2])] 10 2 = Return (incs, per_ip').
Proof.
  assert (H : same_attempts [("10.0.0.1"%string, [2; 1; 3])]
                            [("10.0.0.1"%string, [3; 1; 2])]).
  { constructor; [|constructor]. split; [reflexivity|]. simpl.
    apply (perm_trans (l' := [1; 2; 3])).
    - apply perm_swap.
    - apply (perm_trans (l' := [1; 3; 2])); [apply perm_skip, perm_swap|apply perm_swap]. }
  split; [exact H|]. split; [reflexivity|].
  apply (order_irrelevant _ _ 10 2 600 H). reflexivity.
Defined.

(** X7: an origin with fewer timestamps than the threshold yields no
    incident: a timeline of such lists yields none at all. *)
Theorem short_lists_no_incident per_ip max_minutes threshold window :
  Forall (fun entry => Z.of_nat (List.length (snd entry)) < threshold) per_ip ->
  timedelta_minutes max_minutes = Return window ->
  exists per_ip',
    brute_force per_ip max_minutes threshold = Return ([], per_ip').
Proof.
  intros Hshort Hw. eexists. rewrite (brute_force_spec _ _ _ _ Hw).
  rewrite flat_map_nil; [reflexivity|].
  eapply Forall_impl; [|exact Hshort]. intros [origin times] Hlt. simpl in Hlt.
  unfold detect, clusters_of. simpl.
  rewrite clusters_short; [reflexivity|]. now rewrite sort_length.
Qed.

Lemma short_lists_no_incident_witness :
  Forall (fun entry => Z.of_nat (List.length (snd entry)) < 5) unsorted /\
  timedelta_minutes 10 = Return 600 /\
  exists per_ip', brute_force unsorted 10 5 = Return ([], per_ip').
Proof.
  assert (H : Forall (fun entry => Z.of_nat (List.length (snd entry)) < 5) unsorted).
  { constructor; [simpl; lia|constructor]. }
  split; [exact H|]. split; [reflexivity|].
  apply (short_lists_no_incident unsorted 10 5 600 H). reflexivity.
Defined.

(** X8: with a negative window a cluster is a single timestamp, so a
    threshold of 2 or more yields no incident. *)
Theorem negative_window_no_incident per_ip max_minutes threshold window :
  window < 0 -> 2 <= threshold ->
  timedelta_minutes max_minutes = Return window ->
  exists per_ip',
    brute_force per_ip max_minutes threshold = Return ([], per_ip').
Proof.
  intros Hneg Ht Hw. eexists. rewrite (brute_force_spec _ _ _ _ Hw).
  rewrite flat_map_nil; [reflexivity|].
  apply Forall_forall. intros [origin times] _.
  unfold detect, clusters_of. simpl.
  rewrite clusters_negative; [reflexivity|apply sort_sorted|assumption|assumption].
Qed.

Lemma negative_window_no_incident_witness :
  -60 < 0 /\ 2 <= 2 /\
  timedelta_minutes (-1) = Return (-60) /\
  exists per_ip', brute_force scenario_A (-1) 2 = Return ([], per_ip').
Proof.
  split; [lia|]. split; [lia|]. split; [reflexivity|].
  apply (negative_window_no_incident scenario_A (-1) 2 (-60)); [lia|lia|reflexivity].
Defined.

(** X9: when all the timestamps of every origin lie within the window of
    one another and every origin has at least [threshold] of them (and at
    least one), each origin yields exactly one incident, which counts all its
    timestamps, from the earliest to the latest. *)
Theorem wide_window_one_incident per_ip max_minutes threshold window :
  Forall (fun entry =>
            snd entry <> [] /\
            threshold <= Z.of_nat (List.length (snd entry)) /\
            forall a b, In a (snd entry) -> In b (snd entry) -> b - a <= window)
         per_ip ->
  timedelta_minutes max_minutes = Return window ->
  exists per_ip',
    brute_force per_ip max_minutes threshold = Return (map whole per_ip, per_ip').
Proof.
  intros Hall Hw. eexists. rewrite (brute_force_spec _ _ _ _ Hw).
  rewrite (flat_map_single _ whole); [reflexivity|].
  eapply Forall_impl; [|exact Hall].
  intros [origin times] (Hne & Ht & Hspan). simpl in *.
  assert (Hn : (0 < List.length times)%nat)
    by (destruct times; [contradiction|simpl; lia]).
  unfold detect, clusters_of, whole. simpl.
  rewrite clusters_wide.
  - simpl. rewrite sort_length. unfold incident_of. simpl.
    replace (Z.of_nat (List.length times - 1) - 0 + 1)
      with (Z.of_nat (List.length times)) by lia.
    reflexivity.
  - apply sort_sorted.
  - rewrite sort_length. exact Hn.
  - rewrite sort_length. apply Hspan; apply at_index_sort_in; lia.
  - now rewrite sort_length.
Qed.

Lemma wide_window_one_incident_witness :
  Forall (fun entry =>
            snd entry <> [] /\
            5 <= Z.of_nat (List.length (snd entry)) /\
            forall a b, In a (snd entry) -> In b (snd entry) -> b - a <= 600)
         scenario_A /\
  timedelta_minutes 10 = Return 600 /\
  exists per_ip',
    brute_force scenario_A 10 5 = Return (map whole scenario_A, per_ip').
Proof.
  assert (H : Forall (fun entry =>
            snd entry <> [] /\
            5 <= Z.of_nat (List.length (snd entry)) /\
            forall a b, In a (snd entry) -> In b (snd entry) -> b - a <= 600)
         scenario_A).
  { constructor; [|constructor]. simpl. split; [discriminate|]. split; [lia|].
    intros a b Ha Hb.
    repeat (destruct Ha as [<-|Ha]); try contradiction;
      repeat (destruct Hb as [<-|Hb]); try contradiction; lia. }
  split; [exact H|]. split; [reflexivity|].
  apply (wide_window_one_incident scenario_A 10 5 600 H). reflexivity.
Defined.

End DetectorMore.

(* ================================================================== *)
(** ** Further properties of the parser *)

Module ParserMore.
Import Py Parser Words Measures ParserSpec.

#[local] Open Scope string_scope.

Lemma lstrip_first chars s c :
  first_char (lstrip chars s) = Some c -> mem_char c chars = false.
Proof.
  induction s as [|a s IH]; simpl; [discriminate|].
  destruct (mem_char a chars) eqn:Ha; [exact IH|].
  simpl. intros H. injection H as <-. exact Ha.
Qed.

Lemma rstrip_first chars s c :
  first_char (rstrip chars s) = Some c -> first_char s = Some c.
Proof.
  destruct s as [|a s]; simpl; [discriminate|].
  destruct (rstrip chars s); [destruct (mem_char a chars)|]; simpl;
    try discriminate; trivial.
Qed.

Lemma rstrip_last chars s c :
  last_char (rstrip chars s) = Some c -> mem_char c chars = false.
Proof.
  induction s as [|a s IH]; simpl; [discriminate|].
  destruct (rstrip chars s) as [|b r] eqn:Hr.
  - destruct (mem_char a chars) eqn:Ha; simpl; [discriminate|].
    intros H. injection H as <-. exact Ha.
  - simpl. exact IH.
Qed.

(** X10: an origin the parser returns neither starts nor ends with a comma
    or a semicolon. *)
Theorem origin_trimmed line :
  exists ts origin event,
    parse_auth_line line = Return (ts, origin, event) /\
    forall o c,
      origin = Some o ->
      first_char o = Some c \/ last_char o = Some c ->
      c <> ","%char /\ c <> ";"%char.
Proof.
  assert (Hmem : forall c, mem_char c ",;" = false ->
                           c <> ","%char /\ c <> ";"%char).
  { intros c Hc. split; intros ->; vm_compute in Hc; discriminate Hc. }
  destruct (parse_auth_line_cases line)
    as [(_ & H)|[(_ & _ & H)|(_ & ts & _ & H)]]; rewrite H;
    eexists _, _, _; (split; [reflexivity|]); try discriminate.
  intros o c Ho Hc. apply Hmem.
  destruct (contains " from " line); [|discriminate].
  destruct (token_after_from (split line)) as [tok|]; [|discriminate].
  simpl in Ho. injection Ho as <-. unfold strip in Hc.
  destruct Hc as [Hc|Hc].
  - apply rstrip_first in Hc. now apply lstrip_first in Hc.
  - now apply rstrip_last in Hc.
Qed.

Lemma prefix_app p s :
  String.prefix p s = true -> exists suf, s = p ++ suf.
Proof.
  revert s. induction p as [|a p IH]; intros s.
  - intros _. now exists s.
  - destruct s as [|b s]; simpl; [discriminate|].
    destruct (ascii_dec a b) as [->|]; [|discriminate].
    intros H. destruct (IH s H) as (suf & ->). now exists suf.
Qed.

Lemma contains_app p s :
  contains p s = true -> exists pre suf, s = pre ++ p ++ suf.
Proof.
  induction s as [|b s IH]; cbn [contains]; rewrite orb_true_iff; intros [H|H].
  - apply prefix_app in H as (suf & ->). now exists "", suf.
  - discriminate.
  - apply prefix_app in H as (suf & ->). now exists "", suf.
  - destruct (IH H) as (pre & suf & ->). now exists (String b pre), suf.
Qed.

(** The word between two blanks is a token, whatever was being read. *)
Lemma split_from_finds suf pre :
  forall tok, In "from" (split_from tok (pre ++ " from " ++ suf)).
Proof.
  induction pre as [|c pre IH]; intros tok.
  - destruct tok; simpl; auto.
  - simpl. destruct (is_space c), tok; simpl; auto.
Qed.

Lemma list_index_in x xs :
  In x xs ->
  exists idx, list_index x xs = Return idx /\ nth_error xs idx = Some x.
Proof.
  induction xs as [|y xs IH]; simpl; [contradiction|].
  intros Hin. destruct (String.eqb y x) eqn:E.
  - apply String.eqb_eq in E. subst y. now exists 0%nat.
  - destruct Hin as [->|Hin]; [now rewrite String.eqb_refl in E|].
    destruct (IH Hin) as (idx & Hidx & Hnth).
    exists (S idx). rewrite Hidx. now split.
Qed.

(** X11: the [ValueError] handler of the origin extraction is never
    taken: in a line that contains [from] between two blanks, [from] is a
    token, [parts.index] finds it, and the [try] block returns. *)
Theorem from_always_found line :
  contains " from " line = true ->
  exists idx origin,
    list_index "from" (split line) = Return idx /\
    nth_error (split line) idx = Some "from" /\
    ip_after_from (split line) = Return origin.
Proof.
  intros Hc. apply contains_app in Hc as (pre & suf & ->).
  pose proof (split_from_finds suf pre None) as Hin.
  change (split_from None (pre ++ " from " ++ suf))
    with (split (pre ++ " from " ++ suf)) in Hin.
  remember (split (pre ++ " from " ++ suf)) as parts eqn:Hparts. clear Hparts.
  destruct (list_index_in "from" parts Hin) as (idx & Hidx & Hnth).
  exists idx. unfold ip_after_from. rewrite Hidx. cbn [bind].
  destruct (idx + 1 <? List.length parts)%nat eqn:Hlt.
  - apply Nat.ltb_lt in Hlt. unfold getitem.
    destruct (nth_error parts (idx + 1)) eqn:En; cbn [bind].
    + eexists. split; [reflexivity|]. split; [assumption|reflexivity].
    + apply nth_error_None in En. lia.
  - eexists. split; [reflexivity|]. split; [assumption|reflexivity].
Qed.

Lemma from_always_found_witness :
  contains " from " "Mar 10 13:58:01 host1 sshd: Failed password for root from 203.0.113.45 port 22" = true /\
  exists idx origin,
    list_index "from" (split "Mar 10 13:58:01 host1 sshd: Failed password for root from 203.0.113.45 port 22") = Return idx /\
    nth_error (split "Mar 10 13:58:01 host1 sshd: Failed password for root from 203.0.113.45 port 22") idx = Some "from" /\
    ip_after_from (split "Mar 10 13:58:01 host1 sshd: Failed password for root from 203.0.113.45 port 22") = Return origin.
Proof.
  split; [reflexivity|].
  apply (from_always_found "Mar 10 13:58:01 host1 sshd: Failed password for root from 203.0.113.45 port 22").
  reflexivity.
Defined.

(** X12: the kind of a line.  It is [failed] exactly when the timestamp
    parses and the line contains [Failed password], whatever else it
    contains; [accepted] exactly when the timestamp parses, the line does
    not contain [Failed password] and contains [Accepted password] or
    [Accepted publickey]. *)
Theorem event_kind line :
  exists ts origin event,
    parse_auth_line line = Return (ts, origin, event) /\
    (event = failed <->
     ts <> None /\ contains "Failed password" line = true) /\
    (event = accepted <->
     ts <> None /\ contains "Failed password" line = false /\
     contains "Accepted password" line || contains "Accepted publickey" line = true).
Proof.
  destruct (parse_auth_line_cases line)
    as [(_ & H)|[(_ & _ & H)|(_ & ts & _ & H)]]; rewrite H;
    eexists _, _, _; (split; [reflexivity|]).
  1,2: split; (split; [discriminate|intros [Hn _]; now contradiction Hn]).
  unfold classify.
  destruct (contains "Failed password" line);
    destruct (contains "Accepted password" line || contains "Accepted publickey" line);
    repeat split; try discriminate; try reflexivity;
    try (intros (_ & H1 & H2); discriminate);
    try (intros (_ & H1); discriminate).
Qed.

Lemma find_index_bound x xs k :
  find_index x xs = Some k -> (k < List.length xs)%nat.
Proof.
  revert k. induction xs as [|y xs IH]; intros k; simpl; [discriminate|].
  destruct (String.eqb y x).
  - intros H. injection H as <-. lia.
  - destruct (find_index x xs) as [k'|]; simpl; [|discriminate].
    intros H. injection H as <-. specialize (IH k' eq_refl). lia.
Qed.

Lemma strptime_2025_range ts_str ts :
  strptime_2025 ts_str = Return ts -> 0 <= ts < 365 * 86400.
Proof.
  unfold strptime_2025.
  destruct (split ts_str) as [|b [|d [|hms [|]]]]; try discriminate.
  destruct (split_on ":" "" hms) as [|hh [|mm [|ss [|]]]]; try discriminate.
  destruct (find_index (lower_string b) month_names) as [m|] eqn:Hm;
    [|discriminate].
  destruct (number d) as [day|]; [|discriminate].
  destruct (number hh) as [h|]; [|discriminate].
  destruct (number mm) as [mi|]; [|discriminate].
  destruct (number ss) as [sec|]; [|discriminate].
  apply find_index_bound in Hm.
  destruct (_ && _)%bool eqn:Hc; [|discriminate].
  intros H. injection H as <-.
  repeat (apply andb_true_iff in Hc as [Hc ?]).
  repeat match goal with
         | H : (_ <=? _)%nat = true |- _ => apply Nat.leb_le in H
         end.
  unfold days_in_month_2025 in *.
  do 12 (destruct m as [|m];
         [cbn [nth firstn list_sum fold_right] in *; lia|]).
  cbn [List.length month_names] in Hm. lia.
Qed.

(** X13: every timestamp the parser returns is an instant of the year the
    script assumes: it lies between 2025-01-01T00:00:00 and the end of
    2025-12-31. *)
Theorem timestamp_in_2025 line :
  exists ts origin event,
    parse_auth_line line = Return (ts, origin, event) /\
    forall t, ts = Some t -> 0 <= t < 365 * 86400.
Proof.
  destruct (parse_auth_line_cases line)
    as [(_ & H)|[(_ & _ & H)|(_ & ts & Hts & H)]]; rewrite H;
    eexists _, _, _; (split; [reflexivity|]); try discriminate.
  intros t Ht. injection Ht as <-. now apply strptime_2025_range in Hts.
Qed.

End ParserMore.

(* ================================================================== *)
(** ** Further properties of the grouping, the ranking and the output *)

Module ReportMore.
Import Py Detector Parser Report Trace Words Output Measures.
Import PyFacts Loops ClusterFacts ReportSpec.

(** *** Grouping *)

Lemma ingest_line_attempt per_ip line :
  ingest_line per_ip line
  = Return (match attempt line with
            | Some (a, t) => append_ts per_ip a t
            | None => per_ip
            end).
Proof.
  unfold ingest_line, attempt.
  destruct (ParserSpec.parse_auth_line_returns line) as (ts & origin & event & H).
  rewrite H. cbn [bind].
  destruct ts as [t|], origin as [a|], event;
    try destruct (String.eqb a EmptyString); reflexivity.
Qed.

Lemma attempt_origin line a t : attempt line = Some (a, t) -> a <> EmptyString.
Proof.
  unfold attempt.
  destruct (parse_auth_line line) as [[[[ts|] [origin|]] []]| |]; try discriminate.
  destruct (String.eqb origin EmptyString) eqn:E; [discriminate|].
  intros H. injection H as <- _. now apply String.eqb_neq in E.
Qed.

Lemma dict_set_forall {V} (P : string * V -> Prop) (d : dict V) k v :
  Forall P d -> P (k, v) -> Forall P (dict_set d k v).
Proof.
  intros Hd Hk. induction Hd as [|[k0 v0] d H0 Hd IH]; simpl.
  - now constructor.
  - destruct (String.eqb k0 k) eqn:E.
    + apply String.eqb_eq in E. subst k0. now constructor.
    + now constructor.
Qed.

Lemma append_ts_well_grouped per_ip a t :
  a <> EmptyString -> well_grouped per_ip -> well_grouped (append_ts per_ip a t).
Proof.
  intros Ha (Hnd & Hall). split.
  - now apply dict_set_nodup.
  - apply dict_set_forall; [assumption|]. simpl. split; [assumption|].
    now destruct (dict_get per_ip a []).
Qed.

Lemma append_ts_get per_ip a t origin :
  dict_get (append_ts per_ip a t) origin []
  = if String.eqb a origin then (dict_get per_ip origin [] ++ [t])%list
    else dict_get per_ip origin [].
Proof.
  unfold append_ts. rewrite dict_get_set.
  destruct (String.eqb a origin) eqn:E; [|reflexivity].
  apply String.eqb_eq in E. now subst.
Qed.

Lemma append_ts_total per_ip a t :
  total_stamps (append_ts per_ip a t) = total_stamps per_ip + 1.
Proof.
  unfold append_ts. induction per_ip as [|[k v] d IH]; simpl; [reflexivity|].
  destruct (String.eqb k a); simpl.
  - rewrite length_app. simpl. unfold total_stamps. lia.
  - unfold total_stamps in *. simpl in *. rewrite IH. lia.
Qed.

Lemma attempts_cons line lines :
  attempts (line :: lines)
  = (match attempt line with Some _ => 1 | None => 0 end) + attempts lines.
Proof.
  unfold attempts. simpl. destruct (attempt line); [|lia].
  cbn [List.length]. lia.
Qed.

(** What [ingest] does to a timeline. *)
Lemma ingest_spec lines :
  forall per_ip,
  exists per_ip',
    ingest per_ip lines = Return per_ip' /\
    (well_grouped per_ip -> well_grouped per_ip') /\
    (forall origin,
        dict_get per_ip' origin []
        = (dict_get per_ip origin [] ++ stamps_of origin lines)%list) /\
    total_stamps per_ip' = total_stamps per_ip + attempts lines.
Proof.
  induction lines as [|line lines IH]; intros per_ip.
  - exists per_ip. simpl. split; [reflexivity|]. split; [trivial|]. split.
    + intros origin. now rewrite app_nil_r.
    + unfold attempts. simpl. lia.
  - cbn [ingest]. rewrite ingest_line_attempt. cbn [bind].
    rewrite attempts_cons. cbn [stamps_of].
    destruct (attempt line) as [[a t]|] eqn:Ha.
    + destruct (IH (append_ts per_ip a t)) as (per_ip' & Hrun & Hwell & Hget & Htot).
      exists per_ip'. split; [|split; [|split]].
      * exact Hrun.
      * intros Hw. apply Hwell, append_ts_well_grouped; [|assumption].
        eapply attempt_origin; eassumption.
      * intros origin. rewrite Hget, append_ts_get.
        destruct (String.eqb a origin); [|reflexivity].
        now rewrite <- app_assoc.
      * rewrite Htot, append_ts_total. lia.
    + destruct (IH per_ip) as (per_ip' & Hrun & Hwell & Hget & Htot).
      exists per_ip'. split; [|split; [|split]]; assumption.
Qed.

Lemma well_grouped_nil : well_grouped [].
Proof. split; constructor. Qed.

Lemma dict_get_key (d : timeline) origin :
  Forall (fun entry => snd entry <> []) d ->
  (In origin (map fst d) <-> dict_get d origin [] <> []).
Proof.
  induction 1 as [|[k v] d Hk _ IH]; simpl.
  - split; [contradiction|congruence].
  - destruct (String.eqb k origin) eqn:E.
    + apply String.eqb_eq in E. subst k. split; [now intros _|now left].
    + apply String.eqb_neq in E. rewrite <- IH. split.
      * intros [H|H]; [contradiction|assumption].
      * now right.
Qed.

Lemma dict_get_in (d : timeline) origin times :
  NoDup (map fst d) -> In (origin, times) d -> dict_get d origin [] = times.
Proof.
  induction d as [|[k v] d IH]; simpl; intros Hnd Hin; [contradiction|].
  inversion Hnd as [|? ? Hk Hnd']; subst.
  destruct Hin as [H|H].
  - injection H as -> ->. now rewrite String.eqb_refl.
  - destruct (String.eqb k origin) eqn:E; [|now apply IH].
    apply String.eqb_eq in E. subst k. exfalso. apply Hk.
    apply in_map_iff. now exists (origin, times).
Qed.

(** X14: the grouping keeps the dict well-formed: in the timeline built
    from any lines every origin occurs once, no origin is the empty string
    and no origin has an empty list. *)
Theorem grouping_invariant lines :
  exists per_ip,
    ingest [] lines = Return per_ip /\
    NoDup (map fst per_ip) /\
    Forall (fun entry => fst entry <> EmptyString /\ snd entry <> []) per_ip.
Proof.
  destruct (ingest_spec lines []) as (per_ip & Hrun & Hwell & _).
  exists per_ip. split; [exact Hrun|]. apply Hwell, well_grouped_nil.
Qed.

(** X15: the list of an origin holds the instants of exactly the lines
    that are failed attempts from it, in the order of the lines; the
    origins of the timeline are those with at least one such line. *)
Theorem grouping_content lines :
  exists per_ip,
    ingest [] lines = Return per_ip /\
    (forall origin, dict_get per_ip origin [] = stamps_of origin lines) /\
    (forall origin, In origin (map fst per_ip) <-> stamps_of origin lines <> []).
Proof.
  destruct (ingest_spec lines []) as (per_ip & Hrun & Hwell & Hget & _).
  exists per_ip. split; [exact Hrun|].
  assert (Hcontent : forall origin, dict_get per_ip origin [] = stamps_of origin lines)
    by (intros origin; now rewrite Hget).
  split; [exact Hcontent|].
  intros origin. rewrite <- Hcontent. apply dict_get_key.
  destruct (Hwell well_grouped_nil) as (_ & Hall).
  eapply Forall_impl; [|exact Hall]. now intros entry (_ & H).
Qed.

(** X16: the timeline holds one timestamp for every line that is a failed
    attempt with an origin, and none for any other line. *)
Theorem grouping_count lines :
  exists per_ip,
    ingest [] lines = Return per_ip /\
    total_stamps per_ip = attempts lines.
Proof.
  destruct (ingest_spec lines []) as (per_ip & Hrun & _ & _ & Htot).
  exists per_ip. split; [exact Hrun|]. rewrite Htot. reflexivity.
Qed.

(** *** Ranking *)

Lemma sum_totals_perm l l' : Permutation l l' -> sum_totals l = sum_totals l'.
Proof.
  induction 1 as [|x l l' _ IH|x y l|l l' l'' _ IH1 _ IH2]; simpl;
    unfold sum_totals in *; simpl; lia.
Qed.

Lemma sum_totals_dict_set (d : dict Z) k c :
  sum_totals (dict_set d k (dict_get d k 0 + c)) = sum_totals d + c.
Proof.
  induction d as [|[k0 v0] d IH]; simpl; [unfold sum_totals; simpl; lia|].
  destruct (String.eqb k0 k); unfold sum_totals in *; simpl in *; lia.
Qed.

Lemma summarize_into_sum summary sus :
  sum_totals (summarize_into summary sus) = sum_totals summary + sum_counts sus.
Proof.
  revert summary. induction sus as [|inc rest IH]; intros summary; simpl.
  - unfold sum_counts. simpl. lia.
  - rewrite IH, sum_totals_dict_set. unfold sum_counts. simpl. lia.
Qed.

Lemma raw_counts_sum per_ip : sum_totals (raw_counts per_ip) = total_stamps per_ip.
Proof.
  induction per_ip as [|[a times] per_ip IH]; [reflexivity|].
  unfold sum_totals, total_stamps in *. simpl. rewrite IH. reflexivity.
Qed.

(** X17: the ranking loses and invents nothing: its totals add up to the
    sum of the counts of the incidents when there is an incident, and to
    the number of timestamps in the timeline when there is none. *)
Theorem ranking_totals sus_incidents per_ip :
  sum_totals (top_attackers sus_incidents per_ip)
  = if is_empty sus_incidents then total_stamps per_ip
    else sum_counts sus_incidents.
Proof.
  unfold top_attackers.
  rewrite <- (sum_totals_perm _ _ (sorted_desc_perm _)).
  unfold with_fallback. rewrite summarize_empty.
  destruct sus_incidents as [|inc rest].
  - destruct per_ip as [|entry per_ip]; [reflexivity|].
    cbn [is_empty negb andb]. apply raw_counts_sum.
  - cbn [is_empty andb]. unfold summarize. now rewrite summarize_into_sum.
Qed.

(** [main], in terms of the timeline it builds. *)
Lemma main_spec lines :
  exists per_ip,
    ingest [] lines = Return per_ip /\
    well_grouped per_ip /\
    total_stamps per_ip = attempts lines /\
    (forall origin, dict_get per_ip origin [] = stamps_of origin lines) /\
    main lines
    = Return (flat_map (detect 600 5) per_ip,
              top_attackers (flat_map (detect 600 5) per_ip)
                            (sorted_timeline per_ip)).
Proof.
  destruct (ingest_spec lines []) as (per_ip & Hrun & Hwell & Hget & Htot).
  exists per_ip. split; [exact Hrun|]. split; [apply Hwell, well_grouped_nil|].
  split; [rewrite Htot; reflexivity|]. split; [intros; now rewrite Hget|].
  unfold main. rewrite Hrun. cbn [bind].
  now rewrite (brute_force_spec _ 10 5 600) by reflexivity.
Qed.

Lemma well_grouped_empty per_ip :
  well_grouped per_ip -> (per_ip = [] <-> total_stamps per_ip = 0).
Proof.
  intros (_ & Hall). destruct Hall as [|[a times] per_ip (_ & Hne) _].
  - split; reflexivity.
  - split; [discriminate|]. simpl in Hne.
    unfold total_stamps. simpl. fold (total_stamps per_ip).
    assert (0 <= total_stamps per_ip).
    { clear. induction per_ip as [|e l IH]; unfold total_stamps in *; simpl; lia. }
    destruct times; [contradiction|]. simpl List.length. lia.
Qed.

Lemma sorted_desc_nil l : sorted_desc l = [] <-> l = [].
Proof.
  split; [|now intros ->].
  intros H. pose proof (sorted_desc_perm l) as Hp. rewrite H in Hp.
  apply Permutation_sym in Hp. now apply Permutation_nil in Hp.
Qed.

(** X18: [main] has something to rank exactly when the log holds at least
    one failed attempt with an origin; without any, it reports no incident
    and an empty ranking. *)
Theorem ranking_empty_iff_no_attempt lines :
  exists sus top,
    main lines = Return (sus, top) /\
    (top = [] <-> attempts lines = 0) /\
    (attempts lines = 0 -> sus = []).
Proof.
  destruct (main_spec lines) as (per_ip & _ & Hwell & Htot & _ & Hmain).
  eexists _, _. split; [exact Hmain|].
  rewrite <- Htot, <- (well_grouped_empty per_ip Hwell).
  split; [|now intros ->].
  unfold top_attackers. rewrite sorted_desc_nil.
  unfold with_fallback. rewrite summarize_empty.
  destruct per_ip as [|entry per_ip]; [split; reflexivity|].
  split; [|discriminate].
  destruct (is_empty (flat_map (detect 600 5) (entry :: per_ip))) eqn:E;
    cbn [sorted_timeline map is_empty negb andb raw_counts].
  - discriminate.
  - intros H. pose proof (summarize_empty (flat_map (detect 600 5) (entry :: per_ip))) as Hs.
    rewrite H, E in Hs. discriminate.
Qed.

Lemma detect_incident window threshold origin times inc :
  In inc (detect window threshold (origin, times)) ->
  ip inc = origin /\
  threshold <= count inc <= Z.of_nat (List.length times) /\
  0 <= last inc - first inc <= Z.max 0 window.
Proof.
  intros Hin. apply DetectorSpec.in_detect in Hin as ([i j] & Hc & ->).
  simpl in *.
  pose proof (clusters_of_emitted times window threshold) as He.
  rewrite Forall_forall in He. destruct (He _ Hc) as (_ & Hr & HE & Ht).
  simpl in *. rewrite sort_length in Hr.
  split; [reflexivity|]. split; [lia|].
  assert (Hle : at_index (sort times) i <= at_index (sort times) j)
    by (apply sorted_nth; [apply sort_sorted|rewrite sort_length; lia]).
  split; [lia|].
  destruct (Nat.eq_dec i j) as [->|Hne]; [lia|].
  assert (at_index (sort times) j - at_index (sort times) i <= window)
    by (apply cluster_end_within; rewrite ?sort_length; lia).
  lia.
Qed.

(** X19: every incident [main] reports stands for at least five failed
    attempts of one origin within ten minutes: its count is at least 5 and at
    most the number of failed attempts logged for its origin, it spans at
    most 600 seconds, and its origin is not empty. *)
Theorem main_incidents lines :
  exists sus top,
    main lines = Return (sus, top) /\
    Forall (fun inc =>
              ip inc <> EmptyString /\
              5 <= count inc
              /\ count inc <= Z.of_nat (List.length (stamps_of (ip inc) lines)) /\
              0 <= last inc - first inc <= 600) sus.
Proof.
  destruct (main_spec lines) as (per_ip & _ & (Hnd & Hall) & _ & Hget & Hmain).
  eexists _, _. split; [exact Hmain|].
  apply Forall_forall. intros inc Hin.
  apply in_flat_map in Hin as ([origin times] & Hentry & Hin).
  apply detect_incident in Hin as (Hip & Hcount & Hspan). subst origin.
  rewrite <- Hget, (dict_get_in per_ip (ip inc) times Hnd Hentry).
  rewrite Forall_forall in Hall. destruct (Hall _ Hentry) as (Hne & _).
  simpl in Hne. repeat split; try assumption; lia.
Qed.

(** *** Output *)

Lemma firstn_sorted {A} (R : A -> A -> Prop) k l :
  StronglySorted R l -> StronglySorted R (firstn k l).
Proof.
  intros Hs. revert k. induction Hs as [|x l Hs IH Hall]; intros k.
  - rewrite firstn_nil. constructor.
  - destruct k as [|k]; simpl; constructor; [apply IH|].
    rewrite Forall_forall in *. intros y Hy. apply Hall.
    rewrite <- (firstn_skipn k l). apply in_or_app. now left.
Qed.

Lemma firstn_nodup {A} k (l : list A) : NoDup l -> NoDup (firstn k l).
Proof.
  intros Hnd. rewrite <- (firstn_skipn k l) in Hnd.
  now apply NoDup_app_remove_r in Hnd.
Qed.

Lemma map_sorted {A B} (f : A -> B) (R : A -> A -> Prop) (R' : B -> B -> Prop) l :
  (forall x y, R x y -> R' (f x) (f y)) ->
  StronglySorted R l -> StronglySorted R' (map f l).
Proof.
  intros HR. induction 1 as [|x l Hs IH Hall]; simpl; constructor; [assumption|].
  apply Forall_map. eapply Forall_impl; [|exact Hall]. intros y. apply HR.
Qed.

Lemma ips_fst top : ips top = map fst (firstn 10 top).
Proof. unfold ips, top_ten. apply map_ext. now intros []. Qed.

Lemma counts_snd top : counts top = map snd (firstn 10 top).
Proof. unfold counts, top_ten. apply map_ext. now intros []. Qed.

Lemma raw_counts_keys per_ip : map fst (raw_counts per_ip) = map fst per_ip.
Proof.
  unfold raw_counts. rewrite map_map. apply map_ext. now intros [].
Qed.

Lemma sorted_timeline_keys per_ip : map fst (sorted_timeline per_ip) = map fst per_ip.
Proof. unfold sorted_timeline. now rewrite map_map. Qed.

(** X20: the bar chart of [main] has at most ten bars, one per origin and
    no origin twice, with heights that never increase from left to right;
    the two lists handed to [plt.bar] pair up to the first ten entries of
    the ranking. *)
Theorem bar_chart lines :
  exists sus top,
    main lines = Return (sus, top) /\
    List.length (ips top) = List.length (counts top) /\
    (List.length (ips top) <= 10)%nat /\
    combine (ips top) (counts top) = firstn 10 top /\
    NoDup (ips top) /\
    StronglySorted descending (counts top).
Proof.
  destruct (main_spec lines) as (per_ip & _ & (Hnd & _) & _ & _ & Hmain).
  eexists _, _. split; [exact Hmain|].
  set (sus := flat_map (detect 600 5) per_ip).
  set (top := top_attackers sus (sorted_timeline per_ip)).
  rewrite ips_fst, counts_snd, !length_map.
  split; [reflexivity|]. split; [apply firstn_le_length|].
  split; [|split].
  - generalize (firstn 10 top). intros l.
    induction l as [|[a c] l IH]; simpl; [reflexivity|]. now rewrite IH.
  - rewrite <- firstn_map. apply firstn_nodup.
    assert (Hkeys : NoDup (map fst (with_fallback (summarize sus)
                                                  (sorted_timeline per_ip)))).
    { unfold with_fallback.
      destruct (is_empty (summarize sus) && negb (is_empty (sorted_timeline per_ip))).
      - now rewrite raw_counts_keys, sorted_timeline_keys.
      - apply summarize_into_nodup. constructor. }
    eapply Permutation_NoDup; [|exact Hkeys].
    apply Permutation_map, sorted_desc_perm.
  - apply (map_sorted snd ranks_before descending); [now intros x y H|].
    apply firstn_sorted, sorted_desc_sorted.
Qed.

(** X21: for a preview length that is not negative,
    [print_incidents_preview] prints the number of incidents, then the
    first [preview] incidents (all of them when there are fewer), and the
    three dots exactly when it left some out. *)
Theorem preview_shows_prefix sus_incidents preview :
  0 <= preview ->
  exists shown rest,
    sus_incidents = (shown ++ rest)%list /\
    Z.of_nat (List.length shown) = Z.min preview (Z.of_nat (List.length sus_incidents)) /\
    print_incidents_preview sus_incidents preview
    = (Detected (List.length sus_incidents)
       :: map Shown shown ++ (if is_empty rest then [] else [Dots]))%list.
Proof.
  intros Hp.
  exists (firstn (Z.to_nat preview) sus_incidents),
         (skipn (Z.to_nat preview) sus_incidents).
  split; [now rewrite firstn_skipn|].
  split; [rewrite length_firstn; lia|].
  unfold print_incidents_preview, slice_to.
  replace (0 <=? preview) with true by (symmetry; apply Z.leb_le; lia).
  do 2 f_equal.
  destruct (preview <? Z.of_nat (List.length sus_incidents)) eqn:E.
  - apply Z.ltb_lt in E.
    destruct (skipn (Z.to_nat preview) sus_incidents) eqn:Hs; [|reflexivity].
    pose proof (length_skipn (Z.to_nat preview) sus_incidents) as Hl.
    rewrite Hs in Hl. simpl in Hl. lia.
  - apply Z.ltb_ge in E. rewrite skipn_all2 by lia. reflexivity.
Qed.

Lemma preview_shows_prefix_witness :
  0 <= 5 /\
  exists shown rest,
    [mkIncident "203.0.113.45" 5 0 240] = (shown ++ rest)%list /\
    Z.of_nat (List.length shown)
    = Z.min 5 (Z.of_nat (List.length [mkIncident "203.0.113.45" 5 0 240])) /\
    print_incidents_preview [mkIncident "203.0.113.45" 5 0 240] 5
    = (Detected (List.length [mkIncident "203.0.113.45" 5 0 240])
       :: map Shown shown ++ (if is_empty rest then [] else [Dots]))%list.
Proof.
  split; [lia|].
  apply (preview_shows_prefix [mkIncident "203.0.113.45" 5 0 240] 5). lia.
Defined.

End ReportMore.
